(** * Verification of [scripts/generate.py] (mead-madness report generator)

    A shallow embedding of the report generator: Python strings are lists of
    Unicode code points, dictionaries are finite maps, the [Counter] is an
    insertion-ordered association list, the pyplot figure registry is an
    explicit state threaded through an error/state monad, and figure
    coordinates are binary64 floats as in the source. *)

From Stdlib Require Import ZArith NArith List Ascii String Floats DecimalString.
From stdpp Require Import base decidable list numbers gmap sorting.

Set Warnings "-inexact-float".
Local Open Scope Z_scope.

(** ** Python strings *)

Module PyStr.

(** A Python [str] is a sequence of Unicode code points. *)
Abbreviation char := N (only parsing).
Abbreviation pystr := (list N) (only parsing).

(** An ASCII literal as a Python string. *)
Definition str (s : string) : pystr :=
  map N_of_ascii (list_ascii_of_string s).

Definition semicolon : char := 59%N.
Definition space : char := 32%N.

(** [str.isspace] on one code point, the test [str.split()] uses: the
    characters of Unicode bidirectional class WS, B or S, or category Zs. *)
Definition isspace (c : char) : bool :=
  ((9 <=? c) && (c <=? 13) || (28 <=? c) && (c <=? 32)
   || (c =? 133) || (c =? 160) || (c =? 5760)
   || (8192 <=? c) && (c <=? 8202)
   || (c =? 8232) || (c =? 8233) || (c =? 8239) || (c =? 8287)
   || (c =? 12288))%N.

(** [s.split(sep)] for a one-character separator: every occurrence of
    [sep] ends a piece, so there is one piece more than separators. *)
Fixpoint split_sep (sep : char) (s : pystr) : list pystr :=
  match s with
  | [] => [[]]
  | c :: s' =>
      if (c =? sep)%N then [] :: split_sep sep s'
      else match split_sep sep s' with
           | p :: ps => (c :: p) :: ps
           | [] => [[c]]
           end
  end.

(** [s.split()]: the maximal runs of non-whitespace characters. *)
Fixpoint split_whitespace (s : pystr) : list pystr :=
  match s with
  | [] => []
  | c :: s' =>
      if isspace c then split_whitespace s'
      else match s' with
           | [] => [[c]]
           | c' :: _ =>
               if isspace c' then [c] :: split_whitespace s'
               else match split_whitespace s' with
                    | w :: ws => (c :: w) :: ws
                    | [] => [[c]]
                    end
           end
  end.

(** [sep.join(l)] *)
Fixpoint join (sep : pystr) (l : list pystr) : pystr :=
  match l with
  | [] => []
  | x :: l' =>
      match l' with
      | [] => x
      | _ :: _ => x ++ sep ++ join sep l'
      end
  end.

(** [str(n)] for an integer: its decimal numeral. *)
Definition str_of_int (n : Z) : pystr :=
  str (NilZero.string_of_int (Z.to_int n)).

End PyStr.
Import PyStr.

(** ** Python values found in a table cell *)

Inductive value : Type :=
| VStr (s : pystr)
| VInt (n : Z)
| VFloat (f : float)
| VBool (b : bool)
| VNone.

(** ** Text Normalizer: [clean_split] *)

(** [" ".join(x.split())] *)
Definition joined (x : pystr) : pystr := join (str " ") (split_whitespace x).

Definition clean_split (string : value) : list pystr :=
  match string with
  | VStr s => map (fun x => joined x) (split_sep semicolon s)
  | _ => []
  end.

(** ** Errors and the two monads of the embedding *)

Inductive exn : Type :=
| KeyError (key : Z)
| TypeError
| ValueError.

Inductive result (A : Type) : Type :=
| Ok (a : A)
| Raise (e : exn).
Arguments Ok {A} a.
Arguments Raise {A} e.

#[global] Instance result_ret : MRet result := fun A a => Ok a.
#[global] Instance result_bind : MBind result := fun A B f m =>
  match m with
  | Ok a => f a
  | Raise e => Raise e
  end.

(** ** [collections.Counter]

    A [Counter] is a [dict]: it keeps its keys in insertion order, which is
    the order [write_counter] lists them in. *)

Abbreviation Counter := (list (list N * Z)) (only parsing).

(** [self[elem] = self.get(elem, 0) + 1] *)
Fixpoint counter_incr (elem : pystr) (c : Counter) : Counter :=
  match c with
  | [] => [(elem, 1)]
  | (k, n) :: c' =>
      if decide (k = elem) then (k, n + 1) :: c'
      else (k, n) :: counter_incr elem c'
  end.

(** [c[elem]]; a missing key counts zero. *)
Fixpoint counter_get (c : Counter) (elem : pystr) : Z :=
  match c with
  | [] => 0
  | (k, n) :: c' => if decide (k = elem) then n else counter_get c' elem
  end.

Definition counter_keys (c : Counter) : list pystr := map fst c.

Definition counter_update (c : Counter) (iterable : list pystr) : Counter :=
  fold_left (fun c elem => counter_incr elem c) iterable c.

(** A value of the dynamically typed program, as far as the aggregation can
    produce one: a table cell, or a list of strings. *)
Inductive pyobj : Type :=
| Cell (v : value)
| PyList (l : list pystr).

(** [iter(o)]: a list yields its items, a string its characters; a number
    is not iterable. *)
Definition py_iter (o : pyobj) : result (list pystr) :=
  match o with
  | PyList l => Ok l
  | Cell (VStr s) => Ok (map (fun c => [c]) s)
  | Cell _ => Raise TypeError
  end.

(** [len(o)] *)
Definition py_len (o : pyobj) : result Z :=
  match o with
  | PyList l => Ok (Z.of_nat (length l))
  | Cell (VStr s) => Ok (Z.of_nat (length s))
  | Cell _ => Raise TypeError
  end.

(** [Counter(iterable)] *)
Definition Counter_new (iterable : pyobj) : result Counter :=
  l ← py_iter iterable; mret (counter_update [] l).

(** ** Identifier Name Resolver: [IdNameMapper] *)

Record IdNameMapper : Type := { _id_name_map : gmap Z pystr }.

(** A method receives the object and hands it back with its outcome. *)
Definition IdNameMapper_getitem (self : IdNameMapper) (key : Z)
  : result pystr * IdNameMapper :=
  (let prefix := str "(" ++ str_of_int key ++ str ") " in
   match _id_name_map self !! key with
   | Some name => Ok (prefix ++ name)
   | None => Raise (KeyError key)
   end, self).

(** [key in mapper], from the [Mapping] mixin: try [self[key]], and answer
    [False] on [KeyError]. *)
Definition IdNameMapper_contains (self : IdNameMapper) (key : Z) : bool :=
  match fst (IdNameMapper_getitem self key) with
  | Ok _ => true
  | Raise _ => false
  end.

Definition IdNameMapper_len (self : IdNameMapper) : nat :=
  size (_id_name_map self).

(** ** The ratings table and the pandas operations used on it *)

(** One row of [<instance>.csv]. The fields [Sotma] and [Ovrigt] are the
    columns "Sötma" and "Övrigt"; [column_name] spells them as the file does.
    An empty cell of a text column is read as the float NaN. *)
Record Row : Type := {
  Id : Z;
  Sotma : value;
  Syrlighet : value;
  Fyllighet : value;
  Helhetsbetyg : value;
  Smaknoter : value;
  Bismaker : value;
  Ovrigt : value
}.

Abbreviation DataFrame := (list Row) (only parsing).

Inductive column : Type :=
| CSotma | CSyrlighet | CFyllighet | CHelhetsbetyg
| CSmaknoter | CBismaker | COvrigt.

Definition column_name (c : column) : pystr :=
  match c with
  | CSotma => str "S" ++ [246%N] ++ str "tma"
  | CSyrlighet => str "Syrlighet"
  | CFyllighet => str "Fyllighet"
  | CHelhetsbetyg => str "Helhetsbetyg"
  | CSmaknoter => str "Smaknoter"
  | CBismaker => str "Bismaker"
  | COvrigt => [214%N] ++ str "vrigt"
  end.

Definition cell (c : column) (r : Row) : value :=
  match c with
  | CSotma => Sotma r
  | CSyrlighet => Syrlighet r
  | CFyllighet => Fyllighet r
  | CHelhetsbetyg => Helhetsbetyg r
  | CSmaknoter => Smaknoter r
  | CBismaker => Bismaker r
  | COvrigt => Ovrigt r
  end.

(** A column label: a name, or an identifier left as it is by [rename]. *)
Inductive label : Type :=
| LStr (s : pystr)
| LInt (n : Z).

(** The data handed to a point plot: labelled columns of cells. *)
Abbreviation Frame := (list (label * list value)) (only parsing).

(** [df.query("Id == {}".format(id))] *)
Definition query_Id (df : DataFrame) (id : Z) : DataFrame :=
  filter (fun r => Id r = id) df.

(** [df.filter([c1, ..., cn])] *)
Definition df_filter (cols : list column) (df : DataFrame) : Frame :=
  map (fun c => (LStr (column_name c), map (cell c) df)) cols.

(** [.sum()] of a one-column frame whose cells are lists: pandas reduces the
    column with numpy's addition, which starts from the first cell and so
    concatenates the lists in row order; reducing a column without cells
    gives addition's identity, the number 0. *)
Definition column_sum (cells : list (list pystr)) : pyobj :=
  match cells with
  | [] => Cell (VInt 0)
  | _ :: _ => PyList (concat cells)
  end.

(** [this_df.filter([c]).transform({c: clean_split}).sum().to_dict()[c]] *)
Definition text_sum (c : column) (this_df : DataFrame) : pyobj :=
  column_sum (map (fun r => clean_split (cell c r)) this_df).

(** The keys of [groupby("Id")]: the distinct identifiers, ascending. *)
Definition group_keys (df : DataFrame) : list Z :=
  merge_sort Z.le (remove_dups (map Id df)).

(** [df.filter(["Id", c]).groupby("Id")[c].apply(list).to_dict()] *)
Definition groupby_Id (c : column) (df : DataFrame) : list (Z * list value) :=
  map (fun k => (k, map (cell c) (query_Id df k))) (group_keys df).

(** [pd.DataFrame(d)] of a dict of lists: the lists must agree in length. *)
Definition DataFrame_of_dict (d : list (Z * list value)) : result Frame :=
  match d with
  | [] => Ok []
  | (_, l0) :: _ =>
      if forallb (fun kv => Nat.eqb (length (snd kv)) (length l0)) d
      then Ok (map (fun kv => (LInt (fst kv), snd kv)) d)
      else Raise ValueError
  end.

(** [.rename(mapper=m, axis=1)]: a label the mapper contains is replaced by
    its image, any other is kept. *)
Definition rename_columns (m : IdNameMapper) (f : Frame) : result Frame :=
  mapM (fun '(l, cells) =>
          match l with
          | LInt k =>
              if IdNameMapper_contains m k
              then name ← fst (IdNameMapper_getitem m k); mret (LStr name, cells)
              else mret (l, cells)
          | LStr _ => mret (l, cells)
          end) f.

(** ** The pyplot state *)

Inductive halign : Type := HLeft | HCenter.

Record Text : Type := {
  text_x : float;
  text_y : float;
  text_s : pystr;
  text_fontsize : Z;
  text_ha : halign
}.

Record SubplotParams : Type := {
  sp_left : float;
  sp_right : float;
  sp_top : float;
  sp_bottom : float
}.

(** [sns.pointplot(data=..., errorbar=..., linestyles=..., markers=...)] *)
Record PointPlot : Type := {
  pp_data : Frame;
  pp_errorbar : pystr;
  pp_linestyles : pystr;
  pp_markers : pystr
}.

Record Axes : Type := {
  ax_plots : list PointPlot;
  ax_ylim : option (Z * Z);
  ax_title : option pystr
}.

Record Suptitle : Type := {
  sup_s : pystr;
  sup_fontsize : Z;
  sup_y : float
}.

Record Figure : Type := {
  fig_number : Z;
  fig_dpi : float;
  fig_texts : list Text;             (* the [figtext] calls, in call order *)
  fig_suptitle : option Suptitle;
  fig_subplotpars : option SubplotParams;  (* [None]: the style's default *)
  fig_axes : option Axes;
  fig_size_inches : option (float * float) (* [None]: the style's default *)
}.

(** The process-wide state: the figure registry ([Gcf.figs], an ordered
    dict whose last entry is the active figure), the style in use, and the
    documents written so far. *)
Record State : Type := {
  figs : list Figure;
  style : option pystr;
  files : list (pystr * list Figure)
}.

Definition M (A : Type) : Type := State -> result A * State.

#[global] Instance M_ret : MRet M := fun A a st => (Ok a, st).
#[global] Instance M_bind : MBind M := fun A B f m st =>
  match m st with
  | (Ok a, st') => f a st'
  | (Raise e, st') => (Raise e, st')
  end.

Definition lift {A : Type} (r : result A) : M A := fun st => (r, st).

(** A [for] loop that threads a local variable through its body. *)
Fixpoint for_fold {A B : Type} (l : list A) (body : B -> A -> M B) (b : B) : M B :=
  match l with
  | [] => mret b
  | a :: l' => b' ← body b a; for_fold l' body b'
  end.

Definition for_each {A : Type} (l : list A) (body : A -> M unit) : M unit :=
  for_fold l (fun _ a => body a) ().

(** ** pyplot operations *)

Definition set_figs (fs : list Figure) (st : State) : State :=
  {| figs := fs; style := style st; files := files st |}.

Definition new_figure (dpi : float) (num : Z) : Figure :=
  {| fig_number := num; fig_dpi := dpi; fig_texts := []; fig_suptitle := None;
     fig_subplotpars := None; fig_axes := None; fig_size_inches := None |}.

(** [max(allnums) + 1 if allnums else 1] *)
Definition next_num (fs : list Figure) : Z :=
  match map fig_number fs with
  | [] => 1
  | n :: ns => fold_left Z.max ns n + 1
  end.

Fixpoint modify_last (f : Figure -> Figure) (fs : list Figure) : list Figure :=
  match fs with
  | [] => []
  | x :: fs' =>
      match fs' with
      | [] => [f x]
      | _ :: _ => x :: modify_last f fs'
      end
  end.

Definition add_text (t : Text) (fig : Figure) : Figure :=
  {| fig_number := fig_number fig; fig_dpi := fig_dpi fig;
     fig_texts := fig_texts fig ++ [t]; fig_suptitle := fig_suptitle fig;
     fig_subplotpars := fig_subplotpars fig; fig_axes := fig_axes fig;
     fig_size_inches := fig_size_inches fig |}.

Definition set_suptitle (s : Suptitle) (fig : Figure) : Figure :=
  {| fig_number := fig_number fig; fig_dpi := fig_dpi fig;
     fig_texts := fig_texts fig; fig_suptitle := Some s;
     fig_subplotpars := fig_subplotpars fig; fig_axes := fig_axes fig;
     fig_size_inches := fig_size_inches fig |}.

Definition set_subplotpars (p : SubplotParams) (fig : Figure) : Figure :=
  {| fig_number := fig_number fig; fig_dpi := fig_dpi fig;
     fig_texts := fig_texts fig; fig_suptitle := fig_suptitle fig;
     fig_subplotpars := Some p; fig_axes := fig_axes fig;
     fig_size_inches := fig_size_inches fig |}.

(** [gca()] makes the axes when the figure has none yet. *)
Definition gca (fig : Figure) : Axes :=
  match fig_axes fig with
  | Some ax => ax
  | None => {| ax_plots := []; ax_ylim := None; ax_title := None |}
  end.

Definition set_axes (ax : Axes) (fig : Figure) : Figure :=
  {| fig_number := fig_number fig; fig_dpi := fig_dpi fig;
     fig_texts := fig_texts fig; fig_suptitle := fig_suptitle fig;
     fig_subplotpars := fig_subplotpars fig; fig_axes := Some ax;
     fig_size_inches := fig_size_inches fig |}.

Definition set_size_inches (w h : float) (fig : Figure) : Figure :=
  {| fig_number := fig_number fig; fig_dpi := fig_dpi fig;
     fig_texts := fig_texts fig; fig_suptitle := fig_suptitle fig;
     fig_subplotpars := fig_subplotpars fig; fig_axes := fig_axes fig;
     fig_size_inches := Some (w, h) |}.

Section Pyplot.

(** [rcParams["figure.dpi"]] *)
Variable dpi : float.

(** [plt.figure()]: a new figure, numbered after the largest number in
    the registry; it becomes the active one. *)
Definition plt_figure : M unit := fun st =>
  (Ok (), set_figs (figs st ++ [new_figure dpi (next_num (figs st))]) st).

(** A pyplot call that draws on [gcf()], which makes a figure when the
    registry is empty. *)
Definition on_gcf (f : Figure -> Figure) : M unit := fun st =>
  match figs st with
  | [] => (Ok (), set_figs [f (new_figure dpi 1)] st)
  | _ :: _ => (Ok (), set_figs (modify_last f (figs st)) st)
  end.

Definition plt_figtext (x y : float) (s : pystr) (fontsize : Z) (ha : halign)
  : M unit :=
  on_gcf (add_text {| text_x := x; text_y := y; text_s := s;
                      text_fontsize := fontsize; text_ha := ha |}).

Definition plt_suptitle (s : pystr) (fontsize : Z) (y : float) : M unit :=
  on_gcf (set_suptitle {| sup_s := s; sup_fontsize := fontsize; sup_y := y |}).

Definition plt_subplots_adjust (left right top bottom : float) : M unit :=
  on_gcf (set_subplotpars {| sp_left := left; sp_right := right;
                             sp_top := top; sp_bottom := bottom |}).

Definition sns_pointplot (data : Frame) (errorbar linestyles markers : pystr)
  : M unit :=
  on_gcf (fun fig =>
    let ax := gca fig in
    set_axes {| ax_plots := ax_plots ax ++
                  [{| pp_data := data; pp_errorbar := errorbar;
                      pp_linestyles := linestyles; pp_markers := markers |}];
                ax_ylim := ax_ylim ax; ax_title := ax_title ax |} fig).

Definition gca_set_ylim (lo hi : Z) : M unit :=
  on_gcf (fun fig =>
    let ax := gca fig in
    set_axes {| ax_plots := ax_plots ax; ax_ylim := Some (lo, hi);
                ax_title := ax_title ax |} fig).

Definition plt_title (s : pystr) : M unit :=
  on_gcf (fun fig =>
    let ax := gca fig in
    set_axes {| ax_plots := ax_plots ax; ax_ylim := ax_ylim ax;
                ax_title := Some s |} fig).

Definition plt_style_use (s : pystr) : M unit := fun st =>
  (Ok (), {| figs := figs st; style := Some s; files := files st |}).

(** [plt.get_fignums()]: the registry's numbers, sorted. *)
Definition plt_get_fignums : M (list Z) := fun st =>
  (Ok (merge_sort Z.le (map fig_number (figs st))), st).

Definition find_figure (n : Z) (fs : list Figure) : option Figure :=
  head (filter (fun fig => fig_number fig = n) fs).

(** Making a figure of the registry the active one moves it to the end. *)
Definition activate (n : Z) (fs : list Figure) : list Figure :=
  filter (fun fig => fig_number fig <> n) fs
  ++ filter (fun fig => fig_number fig = n) fs.

(** [plt.figure(n)]: the figure numbered [n], made active; a new one with
    that number when there is none. *)
Definition plt_figure_num (n : Z) : M Figure := fun st =>
  match find_figure n (figs st) with
  | Some fig => (Ok fig, set_figs (activate n (figs st)) st)
  | None => (Ok (new_figure dpi n), set_figs (figs st ++ [new_figure dpi n]) st)
  end.

(** [fig.set_size_inches(w, h)] on the figure object numbered [n]. *)
Definition fig_set_size_inches (n : Z) (w h : float) : M unit := fun st =>
  (Ok (), set_figs (map (fun fig => if decide (fig_number fig = n)
                                    then set_size_inches w h fig else fig)
                        (figs st)) st).

(** [pdf.savefig(n)]: the page drawn from figure [n], which becomes the
    active figure; [ValueError] when the registry has no figure [n]. *)
Definition pdf_savefig (n : Z) : M Figure := fun st =>
  match find_figure n (figs st) with
  | Some fig => (Ok fig, set_figs (activate n (figs st)) st)
  | None => (Raise ValueError, st)
  end.

(** [pdf.close()]: the document is on disk. *)
Definition pdf_close (name : pystr) (pages : list Figure) : M unit := fun st =>
  (Ok (), {| figs := figs st; style := style st;
             files := files st ++ [(name, pages)] |}).

End Pyplot.

(** ** The program *)

(** The aggregates [plot_mead_info] computes before it draws (its lines
    86 to 105). *)
Record Aggregates : Type := {
  filtered_df : Frame;
  notes : Counter;
  off_flavors : Counter;
  other : pyobj
}.

(** Aggregator: the first half of [plot_mead_info]. *)
Definition aggregate (df : DataFrame) (id : Z) : result Aggregates :=
  let this_df := query_Id df id in
  let filtered_df := df_filter [CSotma; CSyrlighet; CFyllighet] this_df in
  notes ← Counter_new (text_sum CSmaknoter this_df);
  off_flavors ← Counter_new (text_sum CBismaker this_df);
  let other := text_sum COvrigt this_df in
  mret {| filtered_df := filtered_df; notes := notes;
          off_flavors := off_flavors; other := other |}.

Section Program.

Variable dpi : float.

(** The order in which [for id in set(l)] visits the set built from [l]. *)
Variable set_iter : list Z -> list Z.

Definition write_counter (x y : float) (title : pystr) (c : Counter)
  : M (float * float) :=
  let x_pos := x in
  let y_pos := y in
  plt_figtext dpi x_pos y_pos title 14 HLeft;;
  y_pos ← for_fold (counter_keys c) (fun y_pos text =>
    let y_pos := (y_pos - 0.04)%float in
    plt_figtext dpi x_pos y_pos
      (str "(" ++ str_of_int (counter_get c text) ++ str ") " ++ text)
      10 HLeft;;
    mret y_pos) y_pos;
  let y_pos := (y_pos - 0.06)%float in
  mret (x_pos, y_pos).

Definition write_list (x y : float) (title : pystr) (l : pyobj)
  : M (float * float) :=
  let x_pos := x in
  let y_pos := y in
  plt_figtext dpi x_pos y_pos title 14 HLeft;;
  items ← lift (py_iter l);
  y_pos ← for_fold items (fun y_pos text =>
    let y_pos := (y_pos - 0.04)%float in
    plt_figtext dpi x_pos y_pos text 10 HLeft;;
    mret y_pos) y_pos;
  let y_pos := (y_pos - 0.06)%float in
  mret (x_pos, y_pos).

(** Figure Composer, per-identifier mode: the second half of
    [plot_mead_info] (its lines 107 to 123). *)
Definition compose (agg : Aggregates) (id : Z) (id_name_map : IdNameMapper)
  : M unit :=
  plt_figure dpi;;
  sns_pointplot dpi (filtered_df agg) (str "sd") (str " ") (str "o");;
  gca_set_ylim dpi 1 9;;
  title ← lift (fst (IdNameMapper_getitem id_name_map id));
  plt_suptitle dpi title 16 0.95;;
  plt_subplots_adjust dpi 0.1 0.9 0.9 0.1;;
  let pos := (0.72, 0.85)%float in
  pos ← (if 0 <? Z.of_nat (length (notes agg)) then
           plt_subplots_adjust dpi 0.1 0.7 0.9 0.1;;
           write_counter (fst pos) (snd pos) (str "Smaknoter") (notes agg)
         else mret pos);
  pos ← (if 0 <? Z.of_nat (length (off_flavors agg)) then
           plt_subplots_adjust dpi 0.1 0.7 0.9 0.1;;
           write_counter (fst pos) (snd pos) (str "Bismaker") (off_flavors agg)
         else mret pos);
  n ← lift (py_len (other agg));
  pos ← (if 0 <? n then
           plt_subplots_adjust dpi 0.1 0.7 0.9 0.1;;
           write_list (fst pos) (snd pos) (column_name COvrigt) (other agg)
         else mret pos);
  mret ().

Definition plot_mead_info (df : DataFrame) (id : Z) (id_name_map : IdNameMapper)
  : M unit :=
  agg ← lift (aggregate df id);
  compose agg id id_name_map.

(** Figure Composer, category mode. *)
Definition plot_category (df : DataFrame) (category : column)
                         (id_name_map : IdNameMapper) : M unit :=
  filtered_df ← lift (d ← DataFrame_of_dict (groupby_Id category df);
                      rename_columns id_name_map d);
  plt_figure dpi;;
  sns_pointplot dpi filtered_df (str "sd") (str " ") (str "o");;
  gca_set_ylim dpi 1 9;;
  plt_title dpi (column_name category).

(** One instance folder, with its two tables as [read_csv] parsed them. *)
Record Instance : Type := {
  instance_folder : pystr;
  id_name_map_csv : list (Z * pystr);   (* columns [Id], [Namn] *)
  mead_data_csv : DataFrame
}.

(** [df.set_index("Id").to_dict()["Namn"]]: a later row replaces an
    earlier one with the same identifier. *)
Definition to_dict (rows : list (Z * pystr)) : gmap Z pystr :=
  fold_left (fun m kv => <[fst kv := snd kv]> m) rows ∅.

(** The "Save pdf" block of [main]. *)
Definition save_pdf (name : pystr) : M unit :=
  nums ← plt_get_fignums;
  pages ← for_fold nums (fun pages n =>
    fig ← plt_figure_num dpi n;
    fig_set_size_inches n (1920 / fig_dpi fig)%float (1080 / fig_dpi fig)%float;;
    page ← pdf_savefig n;
    mret (pages ++ [page])) [];
  pdf_close name pages.

(** The body of [main]'s loop up to the "Save pdf" block: the title page,
    the per-identifier plots and the category plots. *)
Definition plot_instance (inst : Instance) : M unit :=
  let instance_folder := instance_folder inst in
  let id_name_map := {| _id_name_map := to_dict (id_name_map_csv inst) |} in
  let df := mead_data_csv inst in
  plt_style_use (str "Solarize_Light2");;
  plt_figure dpi;;
  plt_figtext dpi 0.5 0.5 instance_folder 24 HCenter;;
  for_each (set_iter (merge_sort Z.le (map Id df))) (fun id =>
    plot_mead_info df id id_name_map);;
  for_each [CSotma; CSyrlighet; CFyllighet; CHelhetsbetyg] (fun category =>
    plot_category df category id_name_map).

(** The body of [main]'s loop over the instance folders. *)
Definition process_instance (inst : Instance) : M unit :=
  plot_instance inst;;
  save_pdf (instance_folder inst ++ str ".pdf").

Definition main (instance_folders : list Instance) : M unit :=
  for_each instance_folders process_instance.

End Program.

(** The state a fresh process starts in. *)
Definition initial_state : State := {| figs := []; style := None; files := [] |}.

(** ** CPython's [set] of integers

    The hash table of [Objects/setobject.c], for keys that are integers:
    open addressing, a run of linear probes after each slot the perturbed
    sequence visits, a table that grows once three fifths of it are in use.
    Iterating a set walks the table from slot 0. *)

Module CPythonSet.

Definition PySet_MINSIZE : Z := 8.
Definition LINEAR_PROBES : Z := 9.
Definition PERTURB_SHIFT : Z := 5.

(** [hash(n)] for an integer, read as the unsigned word that indexes the
    table. *)
Definition int_hash (n : Z) : Z :=
  let h := Z.sgn n * (Z.abs n mod (2 ^ 61 - 1)) in
  (if h =? -1 then -2 else h) mod 2 ^ 64.

Record setobject : Type := {
  table : list (option Z);
  fill : Z;
  mask : Z
}.

(** The inner [do ... while (probes--)]: the slot where the search ends,
    and whether the key is already there. *)
Fixpoint linear_probe (table : list (option Z)) (key : Z) (i probes : nat)
  : option (nat * bool) :=
  match table !! i with
  | Some None => Some (i, false)
  | Some (Some k) =>
      if k =? key then Some (i, true)
      else match probes with
           | O => None
           | S probes' => linear_probe table key (S i) probes'
           end
  | None => None
  end.

(** The outer [while (1)] of [set_add_entry]; [set_insert_clean] walks the
    same slots. The loop ends because the table always has an unused slot;
    [fuel] bounds it here. *)
Fixpoint find_slot (fuel : nat) (table : list (option Z)) (mask key i perturb : Z)
  : option (nat * bool) :=
  match fuel with
  | O => None
  | S fuel' =>
      let probes := if i + LINEAR_PROBES <=? mask then Z.to_nat LINEAR_PROBES else O in
      match linear_probe table key (Z.to_nat i) probes with
      | Some r => Some r
      | None =>
          let perturb := Z.shiftr perturb PERTURB_SHIFT in
          find_slot fuel' table mask key (Z.land (i * 5 + 1 + perturb) mask) perturb
      end
  end.

Definition probe_fuel (table : list (option Z)) : nat := (64 + 2 * length table)%nat.

Definition insert_key (table : list (option Z)) (mask key : Z) : list (option Z) :=
  let hash := int_hash key in
  match find_slot (probe_fuel table) table mask key (Z.land hash mask) hash with
  | Some (j, false) => <[j := Some key]> table
  | _ => table
  end.

(** [newsize = PySet_MINSIZE; while (newsize <= minused) newsize <<= 1;] *)
Fixpoint table_size (fuel : nat) (newsize minused : Z) : Z :=
  match fuel with
  | O => newsize
  | S fuel' =>
      if newsize <=? minused then table_size fuel' (Z.shiftl newsize 1) minused
      else newsize
  end.

(** [set_table_resize]: the keys move to a fresh table, in slot order. *)
Definition set_table_resize (so : setobject) (minused : Z) : setobject :=
  let newsize := table_size 64 PySet_MINSIZE minused in
  let newmask := newsize - 1 in
  {| table := fold_left (fun t k => insert_key t newmask k)
                        (omap id (table so))
                        (replicate (Z.to_nat newsize) None);
     fill := fill so;
     mask := newmask |}.

Definition set_add_entry (so : setobject) (key : Z) : setobject :=
  let hash := int_hash key in
  match find_slot (probe_fuel (table so)) (table so) (mask so) key
                  (Z.land hash (mask so)) hash with
  | Some (j, false) =>
      let so' := {| table := <[j := Some key]> (table so);
                    fill := fill so + 1; mask := mask so |} in
      if fill so' * 5 <? mask so' * 3 then so'
      else set_table_resize so'
             (if 50000 <? fill so' then fill so' * 2 else fill so' * 4)
  | _ => so
  end.

Definition empty_set : setobject :=
  {| table := replicate (Z.to_nat PySet_MINSIZE) None; fill := 0;
     mask := PySet_MINSIZE - 1 |}.

(** [set(l)] for a list [l]: the items are added one by one. *)
Definition set_of_list (l : list Z) : setobject :=
  fold_left set_add_entry l empty_set.

(** [for x in set(l)] *)
Definition set_iter (l : list Z) : list Z :=
  omap id (table (set_of_list l)).

End CPythonSet.

(** ** The normalization as the specification words it

    "Collapse all internal whitespace runs to single spaces and trim
    leading/trailing whitespace." *)

Module NormalizeSpec.

Fixpoint lstrip (s : pystr) : pystr :=
  match s with
  | [] => []
  | c :: s' => if isspace c then lstrip s' else s
  end.

Definition rstrip (s : pystr) : pystr := rev (lstrip (rev s)).

Definition strip (s : pystr) : pystr := rstrip (lstrip s).

(** Every maximal run of whitespace characters becomes one space. *)
Fixpoint collapse (s : pystr) : pystr :=
  match s with
  | [] => []
  | c :: s' =>
      if isspace c then
        match s' with
        | [] => [space]
        | c' :: _ => if isspace c' then collapse s' else space :: collapse s'
        end
      else c :: collapse s'
  end.

Definition normalize (piece : pystr) : pystr := strip (collapse piece).

End NormalizeSpec.

(** ** Sample data *)

Module Sample.

Definition row (id : Z) (s1 s2 s3 s4 : Z) (n b o : value) : Row :=
  {| Id := id; Sotma := VInt s1; Syrlighet := VInt s2; Fyllighet := VInt s3;
     Helhetsbetyg := VInt s4; Smaknoter := n; Bismaker := b; Ovrigt := o |}.

(** An empty cell of a text column is read as NaN. *)
Definition empty_cell : value := VFloat nan.

(** Two tasters, two meads. *)
Definition mead2024_csv : DataFrame :=
  [ row 1 5 4 6 7 (VStr (str "honung;  ljus frukt")) empty_cell (VStr (str "fin"));
    row 2 3 6 5 4 (VStr (str "citrus")) (VStr (str "svavel")) empty_cell;
    row 1 6 5 6 8 (VStr (str "Honung; honung")) empty_cell empty_cell;
    row 2 2 7 4 5 empty_cell (VStr (str "svavel;jolmig")) empty_cell ].

Definition names_csv : list (Z * pystr) := [(1, str "Alpha"); (2, str "Beta")].

Definition mead2024 : Instance :=
  {| instance_folder := str "mead2024"; id_name_map_csv := names_csv;
     mead_data_csv := mead2024_csv |}.

(** One taster, meads 1 and 8. *)
Definition mead2025 : Instance :=
  {| instance_folder := str "mead2025";
     id_name_map_csv := [(1, str "Alpha"); (8, str "Theta")];
     mead_data_csv :=
       [ row 1 5 4 6 7 (VStr (str "honung")) empty_cell empty_cell;
         row 8 3 6 5 4 empty_cell empty_cell empty_cell ] |}.

Definition dpi : float := 100%float.

(** Mead 1 was rated twice, mead 2 once. *)
Definition unbalanced_csv : DataFrame :=
  [ row 1 5 4 6 7 empty_cell empty_cell empty_cell;
    row 2 3 6 5 4 empty_cell empty_cell empty_cell;
    row 1 6 5 6 8 empty_cell empty_cell empty_cell ].

(** A folder with that table; both meads are named. *)
Definition mead2026 : Instance :=
  {| instance_folder := str "mead2026"; id_name_map_csv := names_csv;
     mead_data_csv := unbalanced_csv |}.

Definition resolver : IdNameMapper := {| _id_name_map := to_dict names_csv |}.

Definition no_aggregates : Aggregates :=
  {| filtered_df := []; notes := []; off_flavors := []; other := PyList [] |}.

(** What the Aggregator computes for mead 1. *)
Definition aggregates_1 : Aggregates :=
  match aggregate mead2024_csv 1 with
  | Ok agg => agg
  | Raise _ => no_aggregates
  end.

End Sample.

(** ** Predicates used in the statements *)

(** [c] is the frequency table of [toks]: one entry per distinct token,
    holding the number of its occurrences. *)
Definition frequency_table (c : Counter) (toks : list pystr) : Prop :=
  NoDup (counter_keys c)
  /\ (forall t, t ∈ counter_keys c <-> t ∈ toks)
  /\ (forall t, counter_get c t = Z.of_nat (length (filter (fun x => x = t) toks))).

(** The frame has no rows. *)
Definition no_rows (f : Frame) : Prop := Forall (fun col => snd col = []) f.

(** ** What the drawing code leaves in a figure *)

Definition add_texts (ts : list Text) (fig : Figure) : Figure :=
  {| fig_number := fig_number fig; fig_dpi := fig_dpi fig;
     fig_texts := fig_texts fig ++ ts; fig_suptitle := fig_suptitle fig;
     fig_subplotpars := fig_subplotpars fig; fig_axes := fig_axes fig;
     fig_size_inches := fig_size_inches fig |}.

(** The lines a [for] loop of [write_counter] or [write_list] writes below
    [y], and the cursor after the last one. *)
Fixpoint line_texts (x y : float) (lines : list pystr) : list Text * float :=
  match lines with
  | [] => ([], y)
  | text :: rest =>
      let y := (y - 0.04)%float in
      let r := line_texts x y rest in
      ({| text_x := x; text_y := y; text_s := text; text_fontsize := 10;
          text_ha := HLeft |} :: fst r, snd r)
  end.

(** A title line with its lines, and the cursor for the next block. *)
Definition text_block (pos : float * float) (title : pystr) (lines : list pystr)
  : list Text * (float * float) :=
  let r := line_texts (fst pos) (snd pos) lines in
  ({| text_x := fst pos; text_y := snd pos; text_s := title; text_fontsize := 14;
      text_ha := HLeft |} :: fst r,
   (fst pos, (snd r - 0.06)%float)).

(** The lines of a frequency table: ["(<count>) <token>"]. *)
Definition counter_lines (c : Counter) : list pystr :=
  map (fun text => str "(" ++ str_of_int (counter_get c text) ++ str ") " ++ text)
      (counter_keys c).

(** A group of the panel: nothing at all when the group is empty. *)
Definition panel_group (pos : float * float) (title : pystr) (lines : list pystr)
  : list Text * (float * float) :=
  match lines with
  | [] => ([], pos)
  | _ :: _ => text_block pos title lines
  end.

Definition panel (notes off_flavors : Counter) (other : list pystr) : list Text :=
  let g1 := panel_group (0.72, 0.85)%float (str "Smaknoter") (counter_lines notes) in
  let g2 := panel_group (snd g1) (str "Bismaker") (counter_lines off_flavors) in
  let g3 := panel_group (snd g2) (column_name COvrigt) other in
  fst g1 ++ fst g2 ++ fst g3.

Definition point_plot (data : Frame) : PointPlot :=
  {| pp_data := data; pp_errorbar := str "sd"; pp_linestyles := str " ";
     pp_markers := str "o" |}.

(** The figure [plot_mead_info] draws. *)
Definition mead_info_figure (dpi : float) (num : Z) (data : Frame)
    (notes off_flavors : Counter) (other : list pystr) (title : pystr) : Figure :=
  {| fig_number := num; fig_dpi := dpi;
     fig_texts := panel notes off_flavors other;
     fig_suptitle := Some {| sup_s := title; sup_fontsize := 16; sup_y := 0.95 |};
     fig_subplotpars :=
       Some {| sp_left := 0.1;
               sp_right := match notes, off_flavors, other with
                           | [], [], [] => 0.9
                           | _, _, _ => 0.7
                           end;
               sp_top := 0.9; sp_bottom := 0.1 |};
     fig_axes := Some {| ax_plots := [point_plot data]; ax_ylim := Some (1, 9);
                         ax_title := None |};
     fig_size_inches := None |}.

(** The figure [plot_category] draws. *)
Definition category_figure (dpi : float) (num : Z) (data : Frame) (category : column)
  : Figure :=
  {| fig_number := num; fig_dpi := dpi; fig_texts := []; fig_suptitle := None;
     fig_subplotpars := None;
     fig_axes := Some {| ax_plots := [point_plot data]; ax_ylim := Some (1, 9);
                         ax_title := Some (column_name category) |};
     fig_size_inches := None |}.

(** The title page. *)
Definition title_figure (dpi : float) (num : Z) (instance_folder : pystr) : Figure :=
  {| fig_number := num; fig_dpi := dpi;
     fig_texts := [{| text_x := 0.5; text_y := 0.5; text_s := instance_folder;
                      text_fontsize := 24; text_ha := HCenter |}];
     fig_suptitle := None; fig_subplotpars := None; fig_axes := None;
     fig_size_inches := None |}.

(** The page [save_pdf] writes for a figure: 1920 by 1080 pixels. *)
Definition page (fig : Figure) : Figure :=
  set_size_inches (1920 / fig_dpi fig)%float (1080 / fig_dpi fig)%float fig.

(** [op] returns [a] and changes nothing but the active figure, by [f]. *)
Definition draws {A : Type} (op : M A) (a : A) (f : Figure -> Figure) : Prop :=
  forall st fs fig,
    figs st = fs ++ [fig] -> op st = (Ok a, set_figs (fs ++ [f fig]) st).

(** The lines of a group as the panel shows them: its title first, and
    no line at all for an empty group. *)
Definition group_lines (title : pystr) (lines : list pystr) : list pystr :=
  match lines with
  | [] => []
  | _ :: _ => title :: lines
  end.

(** [op], run with a figure active, raises [e]. *)
Definition raises {A : Type} (op : M A) (e : exn) : Prop :=
  forall st fs fig, figs st = fs ++ [fig] -> exists st', op st = (Raise e, st').

(** [op] either makes exactly one figure, numbered as [plt.figure()]
    numbers it, and touches nothing else, or it raises. *)
Definition creates_one (op : M unit) : Prop :=
  forall st,
    (exists fig, op st = (Ok (), set_figs (figs st ++ [fig]) st)
                 /\ fig_number fig = next_num (figs st))
    \/ (exists e st', op st = (Raise e, st')).

(** [op] makes exactly one figure and never raises. *)
Definition always_creates_one (op : M unit) : Prop :=
  forall st,
    exists fig, op st = (Ok (), set_figs (figs st ++ [fig]) st)
                /\ fig_number fig = next_num (figs st).

(** What Python promises of iterating [set(l)]: every element of [l],
    once. *)
Definition set_contract (set_iter : list Z -> list Z) (l : list Z) : Prop :=
  NoDup (set_iter l)
  /\ Forall (fun x => x ∈ l) (set_iter l)
  /\ Forall (fun x => x ∈ set_iter l) l.

(** Every identifier of the ratings table is a key of the name table. *)
Definition resolves (id_name_map : gmap Z pystr) (df : DataFrame) : Prop :=
  Forall (fun r => is_Some (id_name_map !! Id r)) df.

(** Every identifier of the ratings table has the same number of rows. *)
Definition balanced (df : DataFrame) : Prop :=
  Forall (fun r => Forall (fun r' =>
            length (query_Id df (Id r)) = length (query_Id df (Id r'))) df) df.

(** ** Further predicates and functions used in the statements *)

(** Every whitespace character of [t] is a space that a non-whitespace
    character follows. *)
Fixpoint single_spaced (t : pystr) : bool :=
  match t with
  | [] => true
  | c :: t' =>
      (if isspace c then
         (c =? space)%N
         && match t' with
            | c' :: _ => negb (isspace c')
            | [] => false
            end
       else true)
      && single_spaced t'
  end.

(** A token in normal form: it does not begin or end with whitespace, and
    its words are separated by single spaces. *)
Definition is_normalized (t : pystr) : bool :=
  match t with
  | c :: _ => negb (isspace c)
  | [] => true
  end && single_spaced t.

(** The distinct elements of a list, in the order of their first
    occurrence. *)
Fixpoint first_occurrences (l : list pystr) : list pystr :=
  match l with
  | [] => []
  | x :: l' => x :: filter (fun y => y <> x) (first_occurrences l')
  end.

(** Each height of the list is 0.04 below the one before it. *)
Fixpoint descends (ys : list float) : Prop :=
  match ys with
  | [] => True
  | a :: r =>
      match r with
      | [] => True
      | b :: _ => b = (a - 0.04)%float /\ descends r
      end
  end.

(** [op], run with a figure active, raises [e] and leaves the active figure
    changed by [f]. *)
Definition raises_with {A : Type} (op : M A) (e : exn) (f : Figure -> Figure) : Prop :=
  forall st fs fig,
    figs st = fs ++ [fig] -> op st = (Raise e, set_figs (fs ++ [f fig]) st).

(** The label of identifier [k]'s column in a category plot: its display
    name when the name table has [k], the bare identifier otherwise. *)
Definition category_label (names : gmap Z pystr) (k : Z) : label :=
  match names !! k with
  | Some name => LStr ((str "(" ++ str_of_int k ++ str ") ") ++ name)
  | None => LInt k
  end.

#[global] Instance balanced_dec (df : DataFrame) : Decision (balanced df).
Proof. unfold balanced. apply _. Defined.

(** The page counts of the documents of a run: every document holds the
    [held] figures already in the registry and the figures of its own
    instance, a title page, one page per round of the identifier loop and
    four category pages. *)
Fixpoint page_counts (set_iter : list Z -> list Z) (held : nat)
    (instance_folders : list Instance) : list nat :=
  match instance_folders with
  | [] => []
  | inst :: rest =>
      let n := (held + (1 + length (set_iter (merge_sort Z.le
                                     (map Id (mead_data_csv inst)))) + 4))%nat in
      n :: page_counts set_iter n rest
  end.

(** Each document begins with all the pages of the one before it. *)
Fixpoint grows (prev : list Figure) (docs : list (list N * list Figure)) : Prop :=
  match docs with
  | [] => True
  | d :: ds => prev `prefix_of` snd d /\ grows (snd d) ds
  end.

(** The registry as [main] keeps it between instances: in creation order,
    every figure already sized as a page. *)
Definition registry_saved (st : State) : Prop :=
  StronglySorted Z.lt (map fig_number (figs st)) /\ map page (figs st) = figs st.

(** [op] writes no document, whether it returns or raises. *)
Definition keeps_files {A : Type} (op : M A) : Prop :=
  forall st r st', op st = (r, st') -> files st' = files st.

(** The sum of the counts of a table: the number of elements counted. *)
Definition counter_total (c : Counter) : Z := foldr Z.add 0 (map snd c).

(** The number of tokens the rows give in one text column. *)
Definition token_count (c : column) (rows : DataFrame) : nat :=
  sum_list (map (fun r => length (clean_split (cell c r))) rows).

(** [IdNameMapper(df_id_name_map.set_index("Id").to_dict()["Namn"])], the
    resolver [main] builds from the rows of [id_name_map.csv]. *)
Definition read_id_name_map (rows : list (Z * list N)) : IdNameMapper :=
  {| _id_name_map := to_dict rows |}.

(** ** The tokens of the rows of one identifier

    Stated over the rows of the table itself: a row counts when its
    identifier is the one asked for. *)

(** How often [t] occurs in [toks]. *)
Definition occurrences (t : list N) (toks : list (list N)) : nat :=
  length (filter (fun x => x = t) toks).

(** How often the token [t] occurs in the normalized [field] of the rows of
    [df] whose identifier is [id]. *)
Definition matching_occurrences (field : Row -> value) (df : DataFrame) (id : Z)
    (t : list N) : nat :=
  sum_list (map (fun r => if decide (Id r = id)
                          then occurrences t (clean_split (field r)) else 0%nat) df).

(** [c] counts the tokens of [field] over the rows of [df] with the
    identifier [id]: its keys are distinct, they are the tokens of these
    rows and no others, and each has the number of its occurrences there. *)
Definition token_table (c : Counter) (field : Row -> value) (df : DataFrame) (id : Z)
  : Prop :=
  NoDup (counter_keys c)
  /\ (forall t, t ∈ counter_keys c
                <-> exists r, r ∈ df /\ Id r = id /\ t ∈ clean_split (field r))
  /\ (forall t, counter_get c t = Z.of_nat (matching_occurrences field df id t)).

(** * Theorems *)

(** ** Splitting and joining *)

Section Splitting.

Implicit Types (s t : pystr) (c sep : char).

Lemma split_sep_cons_sep sep s : split_sep sep (sep :: s) = [] :: split_sep sep s.
Proof. simpl. by rewrite N.eqb_refl. Qed.

Lemma split_sep_not_nil sep s : split_sep sep s <> [].
Proof.
  destruct s as [|c s]; simpl; [done|].
  destruct (N.eqb_spec c sep); [done|].
  by destruct (split_sep sep s).
Qed.

Lemma split_sep_length sep s :
  length (split_sep sep s) = S (length (filter (fun c => c = sep) s)).
Proof.
  induction s as [|c s IH]; [done|].
  rewrite filter_cons. cbn [split_sep].
  destruct (N.eqb_spec c sep) as [->|Hne].
  - rewrite decide_True by done. cbn [length]. by rewrite IH.
  - rewrite decide_False by done. rewrite <- IH.
    pose proof (split_sep_not_nil sep s).
    by destruct (split_sep sep s).
Qed.

Lemma join_split_sep sep s : join [sep] (split_sep sep s) = s.
Proof.
  induction s as [|c s IH]; simpl; [done|].
  pose proof (split_sep_not_nil sep s) as Hnil.
  destruct (N.eqb_spec c sep) as [->|Hne].
  - destruct (split_sep sep s) as [|p ps]; [done|].
    simpl in *. by rewrite IH.
  - destruct (split_sep sep s) as [|p ps]; [done|].
    simpl in *. destruct ps; simpl in *; by rewrite <- IH.
Qed.

Lemma split_sep_no_sep sep s : Forall (fun p => sep ∉ p) (split_sep sep s).
Proof.
  induction s as [|c s IH]; simpl.
  - constructor; [|constructor]. by intros ?%elem_of_nil.
  - destruct (N.eqb_spec c sep) as [->|Hne].
    + constructor; [|done]. by intros ?%elem_of_nil.
    + destruct (split_sep sep s) as [|p ps]; simpl.
      * constructor; [|constructor].
        intros [->|?%elem_of_nil]%elem_of_cons; done.
      * inversion IH as [|? ? Hp Hps]; subst. constructor; [|done].
        intros [->|?]%elem_of_cons; done.
Qed.

End Splitting.

(** ** [str.split()] and the normalization of one piece *)

Section Whitespace.

Implicit Types (s t : pystr) (c : char).

Lemma join_cons sep (x : pystr) (l : list pystr) :
  l <> [] -> join sep (x :: l) = x ++ sep ++ join sep l.
Proof. by destruct l. Qed.

Lemma split_ws_space c s :
  isspace c = true -> split_whitespace (c :: s) = split_whitespace s.
Proof. intros H. cbn [split_whitespace]. by rewrite H. Qed.

Lemma split_ws_single c : isspace c = false -> split_whitespace [c] = [[c]].
Proof. intros H. cbn [split_whitespace]. by rewrite H. Qed.

Lemma split_ws_break c c' s :
  isspace c = false -> isspace c' = true ->
  split_whitespace (c :: c' :: s) = [c] :: split_whitespace (c' :: s).
Proof. intros H H'. cbn [split_whitespace]. by rewrite H, H'. Qed.

Lemma split_ws_cont c c' s :
  isspace c = false -> isspace c' = false ->
  split_whitespace (c :: c' :: s) =
    match split_whitespace (c' :: s) with
    | w :: ws => (c :: w) :: ws
    | [] => [[c]]
    end.
Proof. intros H H'. cbn [split_whitespace]. by rewrite H, H'. Qed.

Lemma split_ws_not_nil c s : isspace c = false -> split_whitespace (c :: s) <> [].
Proof.
  intros H. destruct s as [|c' s]; [by rewrite split_ws_single|].
  destruct (isspace c') eqn:H'; [by rewrite split_ws_break|].
  rewrite split_ws_cont by done. by destruct (split_whitespace (c' :: s)).
Qed.

(** Every word is a non-empty run of non-whitespace characters. *)
Lemma split_ws_words s :
  Forall (fun w => w <> [] /\ Forall (fun c => isspace c = false) w)
         (split_whitespace s).
Proof.
  induction s as [|c s IH]; [constructor|].
  destruct (isspace c) eqn:H; [by rewrite split_ws_space|].
  destruct s as [|c' s].
  { rewrite split_ws_single by done. repeat constructor; done. }
  destruct (isspace c') eqn:H'.
  { rewrite split_ws_break by done. constructor; [|done]. repeat constructor; done. }
  rewrite split_ws_cont by done.
  destruct (split_whitespace (c' :: s)) as [|w ws].
  { repeat constructor; done. }
  inversion IH as [|? ? [Hw Hcs] Hws]; subst.
  constructor; [|done]. split; [done|]. by constructor.
Qed.

Lemma joined_space c s : isspace c = true -> joined (c :: s) = joined s.
Proof. intros H. unfold joined. by rewrite split_ws_space. Qed.

Lemma joined_cont c c' s :
  isspace c = false -> isspace c' = false ->
  joined (c :: c' :: s) = c :: joined (c' :: s).
Proof.
  intros H H'. unfold joined. rewrite split_ws_cont by done.
  pose proof (split_ws_not_nil c' s H') as Hn.
  destruct (split_whitespace (c' :: s)) as [|w ws]; [done|].
  by destruct ws.
Qed.

Lemma joined_break c c' s :
  isspace c = false -> isspace c' = true ->
  joined (c :: c' :: s) =
    match split_whitespace (c' :: s) with
    | [] => [c]
    | _ :: _ => c :: space :: joined (c' :: s)
    end.
Proof.
  intros H H'. unfold joined. rewrite split_ws_break by done.
  by destruct (split_whitespace (c' :: s)).
Qed.

Lemma joined_nil s : split_whitespace s = [] -> joined s = [].
Proof. unfold joined. by intros ->. Qed.

(** No non-whitespace character is lost, and none is added. *)
Lemma joined_keeps_nonspace s :
  filter (fun c => isspace c = false) (joined s)
  = filter (fun c => isspace c = false) s.
Proof.
  induction s as [|c s IH]; [done|].
  destruct (isspace c) eqn:H.
  { rewrite joined_space by done. rewrite filter_cons_False; [done|congruence]. }
  rewrite (filter_cons_True _ c s) by done.
  destruct s as [|c' s].
  { unfold joined. rewrite split_ws_single by done. simpl.
    by rewrite filter_cons_True. }
  destruct (isspace c') eqn:H'.
  - rewrite joined_break by done. rewrite <- IH.
    destruct (split_whitespace (c' :: s)) eqn:E.
    + rewrite (joined_nil _ E). by rewrite filter_cons_True.
    + rewrite filter_cons_True by done. by rewrite filter_cons_False.
  - rewrite joined_cont by done. rewrite filter_cons_True by done.
    by rewrite IH.
Qed.

(** A joined string is empty, or begins and ends with a non-whitespace
    character. *)
Lemma join_words_ends (l : list pystr) :
  l <> [] ->
  Forall (fun w => w <> [] /\ Forall (fun c => isspace c = false) w) l ->
  (exists c t, join [space] l = c :: t /\ isspace c = false)
  /\ (exists t c, join [space] l = t ++ [c] /\ isspace c = false).
Proof.
  induction l as [|w l IH]; [done|]. intros _ Hall.
  inversion Hall as [|? ? [Hw Hcs] Hl]; subst.
  destruct w as [|c w]; [done|].
  inversion Hcs as [|? ? Hc Hcs']; subst.
  destruct l as [|w' l].
  - simpl. split; [by exists c, w|].
    destruct (exists_last (l := c :: w)) as (t & d & E); [done|].
    exists t, d. split; [done|].
    rewrite Forall_forall in Hcs. apply Hcs. rewrite E.
    apply elem_of_app. right. by apply list_elem_of_singleton.
  - destruct IH as [_ (t & d & E & Hd)]; [done|done|].
    rewrite join_cons by done. split; [by exists c, (w ++ [space] ++ join [space] (w' :: l))|].
    exists ((c :: w) ++ [space] ++ t), d. split; [|done].
    rewrite E. by rewrite <- !app_assoc.
Qed.

End Whitespace.

(** ** The source's normalization refines the specification's *)

Section Refinement.

Import NormalizeSpec.
Implicit Types (s t : pystr) (c : char).

Lemma collapse_nonspace c s : isspace c = false -> collapse (c :: s) = c :: collapse s.
Proof. intros H. cbn [collapse]. by rewrite H. Qed.

Lemma collapse_space_end c : isspace c = true -> collapse [c] = [space].
Proof. intros H. cbn [collapse]. by rewrite H. Qed.

Lemma collapse_space_space c c' s :
  isspace c = true -> isspace c' = true -> collapse (c :: c' :: s) = collapse (c' :: s).
Proof. intros H H'. cbn [collapse]. by rewrite H, H'. Qed.

Lemma collapse_space_nonspace c c' s :
  isspace c = true -> isspace c' = false ->
  collapse (c :: c' :: s) = space :: collapse (c' :: s).
Proof. intros H H'. cbn [collapse]. by rewrite H, H'. Qed.

(** Collapsing leaves the joined words, possibly between two spaces. *)
Lemma collapse_joined s :
  exists post,
    (post = [] \/ post = [space])
    /\ (split_whitespace s = [] -> post = [])
    /\ collapse s =
         match s with
         | c :: _ => if isspace c then [space] else []
         | [] => []
         end ++ joined s ++ post.
Proof.
  induction s as [|c s IH]; [exists []; by auto|].
  destruct IH as (post & Hpost & Hnil & E).
  destruct (isspace c) eqn:H.
  - rewrite joined_space by done. rewrite split_ws_space by done.
    destruct s as [|c' s].
    + exists []. rewrite collapse_space_end by done. by auto.
    + destruct (isspace c') eqn:H'.
      * rewrite collapse_space_space by done. exists post. by auto.
      * rewrite collapse_space_nonspace by done. exists post.
        rewrite E. by auto.
  - rewrite collapse_nonspace by done.
    destruct s as [|c' s].
    + exists []. unfold joined. rewrite split_ws_single by done. by auto.
    + pose proof (split_ws_not_nil c (c' :: s) H) as Hne.
      destruct (isspace c') eqn:H'.
      * rewrite joined_break by done. rewrite E.
        destruct (split_whitespace (c' :: s)) eqn:Es.
        -- exists [space]. rewrite (joined_nil _ Es), (Hnil eq_refl).
           split; [by right|]. split; [done|]. done.
        -- exists post. split; [done|]. split; [done|]. done.
      * rewrite joined_cont by done. rewrite E. exists post.
        split; [done|]. split; [done|]. done.
Qed.

Lemma rstrip_snoc_space s : rstrip (s ++ [space]) = rstrip s.
Proof. unfold rstrip. by rewrite rev_unit. Qed.

Lemma rstrip_snoc_nonspace s c : isspace c = false -> rstrip (s ++ [c]) = s ++ [c].
Proof.
  intros H. unfold rstrip. rewrite rev_unit. cbn [lstrip]. rewrite H.
  rewrite <- (rev_unit s c). apply rev_involutive.
Qed.

Lemma lstrip_nonspace c s : isspace c = false -> lstrip (c :: s) = c :: s.
Proof. intros H. cbn [lstrip]. by rewrite H. Qed.

(** [" ".join(x.split())] collapses and trims. *)
Lemma joined_normalize s : joined s = normalize s.
Proof.
  destruct (collapse_joined s) as (post & Hpost & Hnil & E).
  unfold normalize, strip. rewrite E.
  destruct (split_whitespace s) as [|w ws] eqn:Es.
  - rewrite (joined_nil _ Es), (Hnil eq_refl).
    destruct s as [|c s]; [done|]. by destruct (isspace c).
  - destruct (join_words_ends (w :: ws)) as [(c & t & Hc & Hsp) (t' & d & Hd & Hsd)];
      [done| rewrite <- Es; apply split_ws_words |].
    assert (lstrip (match s with
                    | c0 :: _ => if isspace c0 then [space] else []
                    | [] => []
                    end ++ joined s ++ post) = joined s ++ post) as ->.
    { unfold joined. rewrite Es. change (join (str " ") (w :: ws)) with (join [space] (w :: ws)).
      rewrite Hc.
      destruct s as [|c0 s]; [by rewrite app_nil_l, <- app_comm_cons, lstrip_nonspace|].
      destruct (isspace c0).
      - change ([space] ++ (c :: t) ++ post) with (space :: ((c :: t) ++ post)).
        cbn [lstrip]. change (isspace space) with true. cbn iota.
        by rewrite <- app_comm_cons, lstrip_nonspace.
      - by rewrite app_nil_l, <- app_comm_cons, lstrip_nonspace. }
    assert (joined s = t' ++ [d]) as Hj.
    { unfold joined. rewrite Es. exact Hd. }
    destruct Hpost as [->| ->].
    + rewrite app_nil_r, Hj. by rewrite rstrip_snoc_nonspace.
    + rewrite rstrip_snoc_space, Hj. by rewrite rstrip_snoc_nonspace.
Qed.

End Refinement.

(** ** Text Normalizer *)

(** C4: a value that is not a string gives no token; a string is split on
    [;] (the pieces hold no [;] and joined by [;] give the string back) and
    every piece is mapped to the piece with its whitespace runs collapsed to
    one space and its ends trimmed, which keeps every non-whitespace character
    in place; the three documented examples hold. *)
Theorem clean_split_contract :
  (forall v,
     clean_split v =
       match v with
       | VStr s => map NormalizeSpec.normalize (split_sep semicolon s)
       | _ => []
       end)
  /\ (forall s,
        join [semicolon] (split_sep semicolon s) = s
        /\ Forall (fun p => semicolon ∉ p) (split_sep semicolon s))
  /\ (forall s,
        Forall2 (fun tok piece =>
                   filter (fun c => isspace c = false) tok
                   = filter (fun c => isspace c = false) piece)
                (clean_split (VStr s)) (split_sep semicolon s))
  /\ clean_split (VStr (str "hej;  Hej; haj")) = [str "hej"; str "Hej"; str "haj"]
  /\ clean_split (VInt 42) = []
  /\ clean_split (VStr (str "")) = [str ""].
Proof.
  split; [|split; [|split; [|by repeat split]]].
  - intros [s| | | |]; try done. simpl.
    apply map_ext. intros x. apply joined_normalize.
  - intros s. split; [apply join_split_sep | apply split_sep_no_sep].
  - intros s. simpl. induction (split_sep semicolon s) as [|p ps IH]; simpl.
    + constructor.
    + constructor; [apply joined_keeps_nonspace | exact IH].
Qed.

(** C10: on a string the normalizer returns one token more than the string
    has semicolons. *)
Theorem clean_split_token_count (s : pystr) :
  length (clean_split (VStr s))
  = (length (filter (fun c => c = semicolon) s) + 1)%nat.
Proof.
  simpl. rewrite length_map, split_sep_length. lia.
Qed.

(** ** Identifier Name Resolver *)

(** C5: a lookup of a key of the table returns ["(<id>) <name>"], a lookup
    of any other identifier raises [KeyError], and the resolver is the same
    object afterwards. *)
Theorem IdNameMapper_getitem_contract (self : IdNameMapper) (key : Z) :
  (forall n, _id_name_map self !! key = Some n ->
     fst (IdNameMapper_getitem self key)
     = Ok (str "(" ++ str_of_int key ++ str ") " ++ n))
  /\ (_id_name_map self !! key = None ->
        fst (IdNameMapper_getitem self key) = Raise (KeyError key))
  /\ snd (IdNameMapper_getitem self key) = self.
Proof.
  unfold IdNameMapper_getitem. cbn [fst snd].
  split; [|split; [|done]].
  - intros n ->. by rewrite <- !app_assoc.
  - by intros ->.
Qed.

Lemma IdNameMapper_getitem_witness :
  let resolver := {| _id_name_map := to_dict [(1, str "Alpha"); (2, str "Beta")] |} in
  fst (IdNameMapper_getitem resolver 1) = Ok (str "(1) Alpha")
  /\ fst (IdNameMapper_getitem resolver 3) = Raise (KeyError 3)
  /\ snd (IdNameMapper_getitem resolver 3) = resolver.
Proof.
  intros resolver.
  split; [|split].
  - exact (proj1 (IdNameMapper_getitem_contract resolver 1) (str "Alpha") eq_refl).
  - exact (proj1 (proj2 (IdNameMapper_getitem_contract resolver 3)) eq_refl).
  - exact (proj2 (proj2 (IdNameMapper_getitem_contract resolver 3))).
Defined.

(** ** The counter *)

Section CounterFacts.

Implicit Types (c : Counter) (e t : pystr) (l toks : list pystr).

Lemma counter_get_incr e c t :
  counter_get (counter_incr e c) t
  = counter_get c t + (if decide (e = t) then 1 else 0).
Proof.
  induction c as [|[k n] c IH]; simpl.
  - destruct (decide (e = t)); lia.
  - destruct (decide (k = e)) as [->|Hke]; simpl.
    + destruct (decide (e = t)); lia.
    + destruct (decide (k = t)) as [->|Hkt].
      * rewrite decide_False by congruence. lia.
      * exact IH.
Qed.

Lemma counter_keys_incr e c t :
  t ∈ counter_keys (counter_incr e c) <-> t = e \/ t ∈ counter_keys c.
Proof.
  unfold counter_keys. induction c as [|[k n] c IH]; simpl.
  - rewrite list_elem_of_singleton, elem_of_nil. tauto.
  - destruct (decide (k = e)) as [->|Hke]; simpl.
    + rewrite elem_of_cons. tauto.
    + rewrite !elem_of_cons, IH. tauto.
Qed.

Lemma counter_keys_incr_NoDup e c :
  NoDup (counter_keys c) -> NoDup (counter_keys (counter_incr e c)).
Proof.
  induction c as [|[k n] c IH]; simpl.
  - intros _. apply NoDup_singleton.
  - intros [Hk Hc]%NoDup_cons.
    destruct (decide (k = e)) as [->|Hke]; simpl.
    + by apply NoDup_cons.
    + apply NoDup_cons. split; [|by apply IH].
      fold (counter_keys (counter_incr e c)).
      rewrite counter_keys_incr. intros [->|?]; done.
Qed.

Lemma frequency_table_incr e c toks :
  frequency_table c toks -> frequency_table (counter_incr e c) (toks ++ [e]).
Proof.
  intros (Hnd & Hkeys & Hget). split; [|split].
  - by apply counter_keys_incr_NoDup.
  - intros t. rewrite counter_keys_incr, Hkeys, elem_of_app, list_elem_of_singleton.
    tauto.
  - intros t. rewrite counter_get_incr, Hget, filter_app, length_app.
    rewrite filter_cons, filter_nil.
    destruct (decide (e = t)); simpl; lia.
Qed.

Lemma frequency_table_update l c toks :
  frequency_table c toks -> frequency_table (counter_update c l) (toks ++ l).
Proof.
  revert c toks. induction l as [|e l IH]; intros c toks H; simpl.
  - by rewrite app_nil_r.
  - replace (toks ++ e :: l) with ((toks ++ [e]) ++ l) by by rewrite <- app_assoc.
    apply IH. by apply frequency_table_incr.
Qed.

Lemma frequency_table_nil : frequency_table [] [].
Proof.
  split; [apply NoDup_nil_2|]. split; [done|]. done.
Qed.

(** [Counter(l)] of a list is its frequency table. *)
Lemma Counter_new_list l :
  exists c, Counter_new (PyList l) = Ok c /\ frequency_table c l.
Proof.
  exists (counter_update [] l). split; [done|].
  apply (frequency_table_update l [] []), frequency_table_nil.
Qed.

End CounterFacts.

(** ** Aggregator *)

Section AggregatorFacts.

Implicit Types (df : DataFrame) (id : Z).

Lemma text_sum_rows col (rows : DataFrame) :
  rows <> [] ->
  text_sum col rows = PyList (concat (map (fun r => clean_split (cell col r)) rows)).
Proof. by destruct rows. Qed.

Lemma aggregate_rows df id :
  query_Id df id <> [] ->
  exists agg,
    aggregate df id = Ok agg
    /\ filtered_df agg = df_filter [CSotma; CSyrlighet; CFyllighet] (query_Id df id)
    /\ frequency_table (notes agg)
         (concat (map (fun r => clean_split (Smaknoter r)) (query_Id df id)))
    /\ frequency_table (off_flavors agg)
         (concat (map (fun r => clean_split (Bismaker r)) (query_Id df id)))
    /\ other agg
       = PyList (concat (map (fun r => clean_split (Ovrigt r)) (query_Id df id))).
Proof.
  intros Hrows. unfold aggregate. rewrite !text_sum_rows by done.
  destruct (Counter_new_list
              (concat (map (fun r => clean_split (cell CSmaknoter r)) (query_Id df id))))
    as (n & -> & Hn).
  destruct (Counter_new_list
              (concat (map (fun r => clean_split (cell CBismaker r)) (query_Id df id))))
    as (o & -> & Ho).
  eexists. split; [reflexivity|]. cbn [filtered_df notes off_flavors other].
  split; [done|]. split; [exact Hn|]. split; [exact Ho|]. done.
Qed.

Lemma aggregate_no_rows df id :
  query_Id df id = [] -> aggregate df id = Raise TypeError.
Proof. intros H. unfold aggregate. by rewrite H. Qed.

End AggregatorFacts.

(** The tokens of the selected rows, read off the table. *)
Lemma matching_tokens (f : Row -> list (list N)) (df : DataFrame) (id : Z) t :
  t ∈ concat (map f (query_Id df id)) <-> exists r, r ∈ df /\ Id r = id /\ t ∈ f r.
Proof.
  unfold query_Id. induction df as [|r df IH].
  - split; [by intros ?%elem_of_nil|]. by intros (r & ?%elem_of_nil & _).
  - rewrite filter_cons. destruct (decide (Id r = id)) as [Hr|Hr].
    + cbn [map concat]. rewrite elem_of_app, IH. split.
      * intros [Ht|(r' & Hin & Hid & Ht)].
        -- exists r. split; [left|done].
        -- exists r'. split; [by right|done].
      * intros (r' & Hin & Hid & Ht). apply elem_of_cons in Hin as [->|Hin].
        -- by left.
        -- right. by exists r'.
    + rewrite IH. split.
      * intros (r' & Hin & Hid & Ht). exists r'. split; [by right|done].
      * intros (r' & Hin & Hid & Ht). apply elem_of_cons in Hin as [->|Hin]; [done|].
        by exists r'.
Qed.

Lemma matching_tokens_count (field : Row -> value) (df : DataFrame) (id : Z) t :
  length (filter (fun x => x = t)
            (concat (map (fun r => clean_split (field r)) (query_Id df id))))
  = matching_occurrences field df id t.
Proof.
  unfold query_Id, matching_occurrences, occurrences. induction df as [|r df IH]; [done|].
  rewrite filter_cons. cbn [map sum_list sum_list_with].
  destruct (decide (Id r = id)) as [Hr|Hr].
  - cbn [map concat]. by rewrite filter_app, length_app, IH.
  - by rewrite IH.
Qed.

Lemma frequency_table_matching (c : Counter) (field : Row -> value) (df : DataFrame) id :
  frequency_table c (concat (map (fun r => clean_split (field r)) (query_Id df id))) ->
  token_table c field df id.
Proof.
  intros (Hnd & Hkeys & Hcount). split; [done|]. split.
  - intros t. rewrite Hkeys. apply matching_tokens.
  - intros t. by rewrite Hcount, matching_tokens_count.
Qed.

(** C7, for an identifier that matches a row: the Aggregator yields its
    tables, and the notes table (and likewise the off-flavors table) has as
    keys, once each, exactly the tokens that the Text Normalizer gives for
    that field of some row of the table with this identifier, each with the
    number of its occurrences in all these rows. *)
Theorem aggregate_frequency_tables (df : DataFrame) (id : Z) :
  id ∈ map Id df ->
  exists agg,
    aggregate df id = Ok agg
    /\ token_table (notes agg) Smaknoter df id
    /\ token_table (off_flavors agg) Bismaker df id.
Proof.
  intros (r & -> & Hr)%list_elem_of_fmap.
  assert (query_Id df (Id r) <> []) as Hrows.
  { assert (r ∈ query_Id df (Id r)) as Hin by by apply list_elem_of_filter.
    intros E. rewrite E in Hin. by apply elem_of_nil in Hin. }
  destruct (aggregate_rows df (Id r) Hrows) as (agg & Hagg & _ & Hn & Ho & _).
  exists agg. split; [done|].
  split; by apply frequency_table_matching.
Qed.

Lemma aggregate_frequency_tables_witness :
  1 ∈ map Id Sample.mead2024_csv
  /\ exists agg,
       aggregate Sample.mead2024_csv 1 = Ok agg
       /\ token_table (notes agg) Smaknoter Sample.mead2024_csv 1
       /\ token_table (off_flavors agg) Bismaker Sample.mead2024_csv 1.
Proof.
  assert (1 ∈ map Id Sample.mead2024_csv) as H
    by (apply (bool_decide_unpack _); vm_compute; exact I).
  exact (conj H (aggregate_frequency_tables Sample.mead2024_csv 1 H)).
Defined.

(** C7, counterexample: no row of the second sample table has the
    identifier 2, and for it the Aggregator yields no table at all: it
    raises [TypeError], where the claim has the empty table. *)
Lemma no_table_without_matching_row :
  (2 ∉ map Id (mead_data_csv Sample.mead2025))
  /\ aggregate (mead_data_csv Sample.mead2025) 2 = Raise TypeError
  /\ ~ (exists agg,
          aggregate (mead_data_csv Sample.mead2025) 2 = Ok agg
          /\ token_table (notes agg) Smaknoter (mead_data_csv Sample.mead2025) 2
          /\ token_table (off_flavors agg) Bismaker (mead_data_csv Sample.mead2025) 2).
Proof.
  split; [apply (bool_decide_unpack _); vm_compute; exact I|].
  split; [reflexivity|]. by intros (agg & [=] & _).
Qed.

(** C2, counterexample: identifier 99 matches no row of the sample table,
    and the Aggregator raises [TypeError]. *)
Lemma aggregate_99_raises :
  query_Id Sample.mead2024_csv 99 = []
  /\ aggregate Sample.mead2024_csv 99 = Raise TypeError.
Proof. split; reflexivity. Qed.

(** ** Drawing on the active figure *)

Section Drawing.

Variable dpi : float.

Lemma set_figs_figs st : set_figs (figs st) st = st.
Proof. by destruct st. Qed.

Lemma set_figs_twice fs fs' st : set_figs fs (set_figs fs' st) = set_figs fs st.
Proof. done. Qed.

Lemma modify_last_snoc f fs fig : modify_last f (fs ++ [fig]) = fs ++ [f fig].
Proof.
  induction fs as [|x fs IH]; [done|].
  cbn [app modify_last]. rewrite IH.
  destruct fs; done.
Qed.

Lemma draws_ret {A} (a : A) : draws (mret a) a (fun fig => fig).
Proof. intros st fs fig E. rewrite <- E. by rewrite set_figs_figs. Qed.

Lemma draws_on_gcf f : draws (on_gcf dpi f) () f.
Proof.
  intros st fs fig E. unfold on_gcf. rewrite E, modify_last_snoc.
  by destruct fs.
Qed.

Lemma draws_bind {A B} (m : M A) (k : A -> M B) a b f g :
  draws m a f -> draws (k a) b g -> draws (m ≫= k) b (fun fig => g (f fig)).
Proof.
  intros Hm Hk st fs fig E. unfold mbind, M_bind.
  rewrite (Hm st fs fig E).
  by rewrite (Hk (set_figs (fs ++ [f fig]) st) fs (f fig) eq_refl).
Qed.

Lemma draws_ext {A} (op : M A) a f g :
  draws op a f -> (forall fig, f fig = g fig) -> draws op a g.
Proof. intros H Hfg st fs fig E. rewrite <- Hfg. by apply H. Qed.

Lemma draws_raise {A B} (m : M A) (k : A -> M B) a f e :
  draws m a f -> (forall st, k a st = (Raise e, st)) ->
  forall st fs fig, figs st = fs ++ [fig] ->
    (m ≫= k) st = (Raise e, set_figs (fs ++ [f fig]) st).
Proof.
  intros Hm Hk st fs fig E. unfold mbind, M_bind.
  by rewrite (Hm st fs fig E), Hk.
Qed.

Lemma raises_lift {A B} (k : A -> M B) e : raises (lift (Raise e) ≫= k) e.
Proof. intros st fs fig _. by exists st. Qed.

Lemma raises_bind {A B} (m : M A) (k : A -> M B) a f e :
  draws m a f -> raises (k a) e -> raises (m ≫= k) e.
Proof.
  intros Hm Hk st fs fig E. unfold mbind, M_bind. rewrite (Hm st fs fig E).
  exact (Hk (set_figs (fs ++ [f fig]) st) fs (f fig) eq_refl).
Qed.

Lemma figure_then_raises {A} (op : M A) e st :
  raises op e -> exists st', (plt_figure dpi ≫= fun _ => op) st = (Raise e, st').
Proof.
  intros H. unfold mbind, M_bind, plt_figure.
  exact (H (set_figs (figs st ++ [new_figure dpi (next_num (figs st))]) st)
           (figs st) (new_figure dpi (next_num (figs st))) eq_refl).
Qed.

(** After [plt.figure()], what is drawn lands on the new figure. *)
Lemma figure_then_draws {A} (op : M A) a f st :
  draws op a f ->
  (plt_figure dpi ≫= fun _ => op) st
  = (Ok a, set_figs (figs st ++ [f (new_figure dpi (next_num (figs st)))]) st).
Proof.
  intros H. unfold mbind, M_bind, plt_figure.
  by rewrite (H (set_figs (figs st ++ [new_figure dpi (next_num (figs st))]) st)
                (figs st) (new_figure dpi (next_num (figs st))) eq_refl).
Qed.

Lemma add_texts_cons t ts fig : add_texts ts (add_text t fig) = add_texts (t :: ts) fig.
Proof. unfold add_texts, add_text. simpl. by rewrite <- app_assoc. Qed.

Lemma add_texts_nil fig : add_texts [] fig = fig.
Proof. destruct fig. unfold add_texts. simpl. by rewrite app_nil_r. Qed.

Lemma add_texts_app ts ts' fig :
  add_texts ts' (add_texts ts fig) = add_texts (ts ++ ts') fig.
Proof. unfold add_texts. simpl. by rewrite <- app_assoc. Qed.

(** The loop of [write_counter] and of [write_list]. *)
Lemma draws_lines {A} (fmt : A -> pystr) (x : float) (l : list A) (y : float) :
  draws (for_fold l (fun y_pos text =>
           let y_pos := (y_pos - 0.04)%float in
           plt_figtext dpi x y_pos (fmt text) 10 HLeft;;
           mret y_pos) y)
        (snd (line_texts x y (map fmt l)))
        (add_texts (fst (line_texts x y (map fmt l)))).
Proof.
  revert y. induction l as [|a l IH]; intros y.
  - simpl. eapply draws_ext; [apply draws_ret|]. intros fig. by rewrite add_texts_nil.
  - cbn [for_fold map line_texts fst snd].
    eapply draws_ext.
    + eapply draws_bind; [|apply IH].
      eapply draws_bind; [apply draws_on_gcf | apply draws_ret].
    + intros fig. cbn beta. by rewrite add_texts_cons.
Qed.

Lemma draws_write_counter x y title c :
  draws (write_counter dpi x y title c)
        (snd (text_block (x, y) title (counter_lines c)))
        (add_texts (fst (text_block (x, y) title (counter_lines c)))).
Proof.
  unfold write_counter, text_block, counter_lines. cbn [fst snd].
  eapply draws_ext.
  - eapply draws_bind; [apply draws_on_gcf|].
    eapply draws_bind; [|apply draws_ret].
    apply (draws_lines
             (fun text => str "(" ++ str_of_int (counter_get c text) ++ str ") " ++ text)).
  - intros fig. cbn beta. by rewrite add_texts_cons.
Qed.

Lemma draws_write_list x y title l :
  draws (write_list dpi x y title (PyList l))
        (snd (text_block (x, y) title l))
        (add_texts (fst (text_block (x, y) title l))).
Proof.
  unfold write_list, text_block. cbn [fst snd].
  eapply draws_ext.
  - eapply draws_bind; [apply draws_on_gcf|].
    eapply (draws_bind (lift (py_iter (PyList l)))); [apply (draws_ret l)|].
    eapply draws_bind; [|apply draws_ret].
    pose proof (draws_lines (fun text => text) x l y) as H.
    rewrite map_id in H. exact H.
  - intros fig. cbn beta. by rewrite add_texts_cons.
Qed.

End Drawing.

(** ** Figure Composer *)

Section Composer.

Variable dpi : float.

Ltac draw_step :=
  first [ apply draws_write_counter
        | apply draws_write_list
        | apply draws_on_gcf
        | apply draws_ret
        | eapply draws_bind ].

Lemma positive_length {A} (x : A) (l : list A) :
  (0 <? Z.of_nat (length (x :: l))) = true.
Proof. apply Z.ltb_lt. simpl length. lia. Qed.

Lemma figure_eq (f g : Figure) :
  fig_number f = fig_number g -> fig_dpi f = fig_dpi g ->
  fig_texts f = fig_texts g -> fig_suptitle f = fig_suptitle g ->
  fig_subplotpars f = fig_subplotpars g -> fig_axes f = fig_axes g ->
  fig_size_inches f = fig_size_inches g -> f = g.
Proof. destruct f, g. simpl. by intros -> -> -> -> -> -> ->. Qed.

Lemma getitem_Some (m : IdNameMapper) id name :
  _id_name_map m !! id = Some name ->
  fst (IdNameMapper_getitem m id) = Ok ((str "(" ++ str_of_int id ++ str ") ") ++ name).
Proof. intros H. unfold IdNameMapper_getitem. cbn [fst]. by rewrite H. Qed.

Lemma getitem_None (m : IdNameMapper) id :
  _id_name_map m !! id = None ->
  fst (IdNameMapper_getitem m id) = Raise (KeyError id).
Proof. intros H. unfold IdNameMapper_getitem. cbn [fst]. by rewrite H. Qed.

(** The per-identifier composer draws exactly [mead_info_figure]. *)
Lemma compose_figure agg id (m : IdNameMapper) name o st :
  _id_name_map m !! id = Some name ->
  other agg = PyList o ->
  compose dpi agg id m st
  = (Ok (),
     set_figs (figs st ++
       [mead_info_figure dpi (next_num (figs st)) (filtered_df agg)
          (notes agg) (off_flavors agg) o
          ((str "(" ++ str_of_int id ++ str ") ") ++ name)]) st).
Proof.
  intros Hm Ho. unfold compose.
  rewrite (getitem_Some m id name Hm), Ho.
  destruct (notes agg) as [|n1 ns]; destruct (off_flavors agg) as [|o1 os];
    destruct o as [|t1 ts];
    rewrite ?positive_length;
    change (0 <? Z.of_nat (@length (list N * Z) [])) with false;
    change (py_len (PyList [])) with (Ok (A := Z) 0);
    cbn iota;
    (erewrite figure_then_draws; [|repeat draw_step]).
  all: do 4 f_equal.
  all: apply figure_eq;
    unfold mead_info_figure, panel, panel_group, counter_lines, counter_keys;
    cbn [fig_number fig_dpi fig_texts fig_suptitle fig_subplotpars fig_axes
         fig_size_inches add_texts set_subplotpars set_suptitle set_axes gca
         new_figure mead_info_figure panel panel_group fst snd ax_plots ax_ylim
         ax_title point_plot counter_lines counter_keys map];
    rewrite ?app_nil_r, ?app_nil_l, <- ?app_assoc; reflexivity.
Qed.

Lemma compose_unresolved agg id (m : IdNameMapper) st :
  _id_name_map m !! id = None ->
  exists st', compose dpi agg id m st = (Raise (KeyError id), st').
Proof.
  intros Hm. unfold compose. rewrite (getitem_None m id Hm).
  apply figure_then_raises.
  eapply raises_bind; [apply draws_on_gcf|].
  eapply raises_bind; [apply draws_on_gcf|].
  apply raises_lift.
Qed.

Lemma plot_mead_info_no_rows df id (m : IdNameMapper) st :
  query_Id df id = [] ->
  plot_mead_info dpi df id m st = (Raise TypeError, st).
Proof.
  intros H. unfold plot_mead_info. by rewrite (aggregate_no_rows df id H).
Qed.

Lemma plot_mead_info_figure df id (m : IdNameMapper) name st :
  query_Id df id <> [] ->
  _id_name_map m !! id = Some name ->
  exists agg o,
    aggregate df id = Ok agg /\ other agg = PyList o
    /\ plot_mead_info dpi df id m st
       = (Ok (),
          set_figs (figs st ++
            [mead_info_figure dpi (next_num (figs st)) (filtered_df agg)
               (notes agg) (off_flavors agg) o
               ((str "(" ++ str_of_int id ++ str ") ") ++ name)]) st).
Proof.
  intros Hrows Hm.
  destruct (aggregate_rows df id Hrows) as (agg & Hagg & _ & _ & _ & Ho).
  exists agg. eexists. split; [done|]. split; [exact Ho|].
  unfold plot_mead_info. rewrite Hagg.
  exact (compose_figure agg id m name _ st Hm Ho).
Qed.

Lemma plot_mead_info_unresolved df id (m : IdNameMapper) st :
  query_Id df id <> [] ->
  _id_name_map m !! id = None ->
  exists st', plot_mead_info dpi df id m st = (Raise (KeyError id), st').
Proof.
  intros Hrows Hm.
  destruct (aggregate_rows df id Hrows) as (agg & Hagg & _).
  unfold plot_mead_info. rewrite Hagg.
  exact (compose_unresolved agg id m st Hm).
Qed.

Lemma rename_columns_ok (m : IdNameMapper) (d : Frame) :
  exists f, rename_columns m d = Ok f.
Proof.
  unfold rename_columns. induction d as [|[l cells] d [f IH]]; [by exists []|].
  cbn [mapM]. rewrite IH.
  destruct l as [s|k]; [by eexists|].
  unfold IdNameMapper_contains.
  destruct (fst (IdNameMapper_getitem m k)); by eexists.
Qed.

Lemma plot_category_figure df category (m : IdNameMapper) d st :
  DataFrame_of_dict (groupby_Id category df) = Ok d ->
  exists f,
    plot_category dpi df category m st
    = (Ok (),
       set_figs (figs st ++ [category_figure dpi (next_num (figs st)) f category]) st).
Proof.
  intros Hd. destruct (rename_columns_ok m d) as [f Hf].
  exists f. unfold plot_category. rewrite Hd. cbn [mbind result_bind].
  rewrite Hf.
  change (lift (Ok f) ≫= ?k) with (k f). cbn beta.
  erewrite figure_then_draws; [|repeat draw_step].
  do 4 f_equal; by apply figure_eq.
Qed.

Lemma plot_category_raises df category (m : IdNameMapper) e st :
  DataFrame_of_dict (groupby_Id category df) = Raise e ->
  plot_category dpi df category m st = (Raise e, st).
Proof. intros Hd. unfold plot_category. by rewrite Hd. Qed.

End Composer.

(** ** The annotation panel *)

Section Panel.

Lemma line_texts_strings x y lines : map text_s (fst (line_texts x y lines)) = lines.
Proof.
  revert y. induction lines as [|l lines IH]; intros y; [done|].
  cbn [line_texts fst map text_s]. by rewrite IH.
Qed.

Lemma line_texts_x x y lines :
  Forall (fun t => text_x t = x) (fst (line_texts x y lines)).
Proof.
  revert y. induction lines as [|l lines IH]; intros y; [constructor|].
  cbn [line_texts fst]. constructor; [done|apply IH].
Qed.

Lemma panel_group_strings pos title lines :
  map text_s (fst (panel_group pos title lines)) = group_lines title lines.
Proof.
  destruct lines as [|l lines]; [done|].
  unfold panel_group, text_block, group_lines. cbn [fst map text_s].
  by rewrite line_texts_strings.
Qed.

Lemma panel_group_x pos title lines :
  Forall (fun t => text_x t = fst pos) (fst (panel_group pos title lines))
  /\ fst (snd (panel_group pos title lines)) = fst pos.
Proof.
  destruct lines as [|l lines]; [by split; [constructor|]|].
  unfold panel_group, text_block. cbn [fst snd]. split; [|done].
  constructor; [done|]. apply line_texts_x.
Qed.

Lemma panel_strings nts offs oth :
  map text_s (panel nts offs oth)
  = group_lines (str "Smaknoter") (counter_lines nts)
    ++ group_lines (str "Bismaker") (counter_lines offs)
    ++ group_lines (column_name COvrigt) oth.
Proof.
  unfold panel. cbv zeta. by rewrite !map_app, !panel_group_strings.
Qed.

Lemma panel_x nts offs oth :
  Forall (fun t => text_x t = 0.72%float) (panel nts offs oth).
Proof.
  unfold panel. cbv zeta.
  set (g1 := panel_group (0.72, 0.85)%float (str "Smaknoter") (counter_lines nts)).
  set (g2 := panel_group (snd g1) (str "Bismaker") (counter_lines offs)).
  destruct (panel_group_x (0.72, 0.85)%float (str "Smaknoter") (counter_lines nts))
    as [H1 E1].
  destruct (panel_group_x (snd g1) (str "Bismaker") (counter_lines offs)) as [H2 E2].
  destruct (panel_group_x (snd g2) (column_name COvrigt) oth) as [H3 _].
  fold g1 in H1, E1. fold g2 in H2, E2.
  rewrite E2, E1 in H3. rewrite E1 in H2.
  repeat (apply Forall_app; split); done.
Qed.

Lemma panel_empty : panel [] [] [] = [].
Proof. reflexivity. Qed.

End Panel.

(** ** Numbering of figures *)

Section Numbering.

Lemma fold_left_max_le (ns : list Z) (n : Z) :
  n <= fold_left Z.max ns n /\ Forall (fun k => k <= fold_left Z.max ns n) ns.
Proof.
  revert n. induction ns as [|k ns IH]; intros n; simpl.
  - split; [lia|constructor].
  - destruct (IH (Z.max n k)) as [H1 H2]. split; [lia|].
    constructor; [lia|done].
Qed.

(** A new figure is numbered above every figure of the registry. *)
Lemma next_num_above (fs : list Figure) :
  Forall (fun fig => fig_number fig < next_num fs) fs.
Proof.
  unfold next_num. destruct fs as [|f fs]; [constructor|].
  cbn [map]. destruct (fold_left_max_le (map fig_number fs) (fig_number f)) as [H1 H2].
  constructor; [lia|].
  rewrite Forall_map in H2. eapply Forall_impl; [exact H2|].
  simpl. intros; lia.
Qed.

Lemma next_num_positive (fs : list Figure) :
  Forall (fun fig => 0 < fig_number fig) fs -> 0 < next_num fs.
Proof.
  intros H. pose proof (next_num_above fs) as Ha.
  destruct fs as [|f fs]; [done|].
  inversion H; subst. inversion Ha; subst. lia.
Qed.

Lemma next_num_snoc (fs : list Figure) (fig : Figure) :
  fig_number fig = next_num fs -> next_num (fs ++ [fig]) = next_num fs + 1.
Proof.
  intros E. unfold next_num in *. rewrite map_app. cbn [map].
  destruct (map fig_number fs) as [|n ns]; simpl.
  - lia.
  - rewrite fold_left_app. simpl. lia.
Qed.

End Numbering.

(** ** Per-identifier figures *)

(** C8: the per-identifier figure of an identifier the resolver knows. Its
    panel holds the non-empty groups in the order notes, off-flavors, other,
    each under its title, at the panel's horizontal position, and nothing for
    an empty group; with all three groups empty there is no panel text and
    the plot keeps the width [right = 0.9]; with a non-empty group the plot
    is shrunk to [right = 0.7]. *)
Theorem plot_mead_info_panel dpi (df : DataFrame) id (m : IdNameMapper) agg name st :
  aggregate df id = Ok agg ->
  _id_name_map m !! id = Some name ->
  exists fig o,
    other agg = PyList o
    /\ plot_mead_info dpi df id m st = (Ok (), set_figs (figs st ++ [fig]) st)
    /\ map text_s (fig_texts fig)
       = group_lines (str "Smaknoter") (counter_lines (notes agg))
         ++ group_lines (str "Bismaker") (counter_lines (off_flavors agg))
         ++ group_lines (column_name COvrigt) o
    /\ Forall (fun t => text_x t = 0.72%float) (fig_texts fig)
    /\ (notes agg = [] /\ off_flavors agg = [] /\ o = [] ->
        fig_texts fig = []
        /\ fig_subplotpars fig
           = Some {| sp_left := 0.1; sp_right := 0.9; sp_top := 0.9; sp_bottom := 0.1 |})
    /\ (~ (notes agg = [] /\ off_flavors agg = [] /\ o = []) ->
        fig_subplotpars fig
        = Some {| sp_left := 0.1; sp_right := 0.7; sp_top := 0.9; sp_bottom := 0.1 |}).
Proof.
  intros Hagg Hm.
  assert (query_Id df id <> []) as Hrows.
  { intros E. rewrite (aggregate_no_rows df id E) in Hagg. discriminate. }
  destruct (plot_mead_info_figure dpi df id m name st Hrows Hm)
    as (agg' & o & Hagg' & Ho & Hplot).
  rewrite Hagg in Hagg'. injection Hagg' as <-.
  eexists. exists o. split; [exact Ho|]. split; [exact Hplot|].
  cbn [fig_texts fig_subplotpars mead_info_figure].
  split; [apply panel_strings|]. split; [apply panel_x|]. split.
  - intros (-> & -> & ->). by split.
  - intros Hne. destruct (notes agg), (off_flavors agg), o; try done.
    by destruct Hne.
Qed.

Lemma plot_mead_info_panel_witness :
  aggregate Sample.mead2024_csv 1 = Ok Sample.aggregates_1
  /\ _id_name_map Sample.resolver !! 1 = Some (str "Alpha")
  /\ exists fig o,
       other Sample.aggregates_1 = PyList o
       /\ plot_mead_info Sample.dpi Sample.mead2024_csv 1 Sample.resolver initial_state
          = (Ok (), set_figs (figs initial_state ++ [fig]) initial_state)
       /\ map text_s (fig_texts fig)
          = group_lines (str "Smaknoter") (counter_lines (notes Sample.aggregates_1))
            ++ group_lines (str "Bismaker")
                 (counter_lines (off_flavors Sample.aggregates_1))
            ++ group_lines (column_name COvrigt) o
       /\ Forall (fun t => text_x t = 0.72%float) (fig_texts fig)
       /\ (notes Sample.aggregates_1 = [] /\ off_flavors Sample.aggregates_1 = []
           /\ o = [] ->
           fig_texts fig = []
           /\ fig_subplotpars fig
              = Some {| sp_left := 0.1; sp_right := 0.9; sp_top := 0.9;
                        sp_bottom := 0.1 |})
       /\ (~ (notes Sample.aggregates_1 = [] /\ off_flavors Sample.aggregates_1 = []
              /\ o = []) ->
           fig_subplotpars fig
           = Some {| sp_left := 0.1; sp_right := 0.7; sp_top := 0.9;
                     sp_bottom := 0.1 |}).
Proof.
  assert (aggregate Sample.mead2024_csv 1 = Ok Sample.aggregates_1) as H1
    by (vm_compute; reflexivity).
  assert (_id_name_map Sample.resolver !! 1 = Some (str "Alpha")) as H2
    by (vm_compute; reflexivity).
  exact (conj H1 (conj H2
    (plot_mead_info_panel Sample.dpi Sample.mead2024_csv 1 Sample.resolver
       Sample.aggregates_1 (str "Alpha") initial_state H1 H2))).
Defined.

(** ** Aggregator on an identifier without rows *)

(** C2, as the code has it: for an identifier that matches no row the rating
    subframe has no rows, each text column sums to the number 0 and not to an
    empty list, and building the notes table raises [TypeError] before any
    figure is made. *)
Theorem aggregate_no_matching_row dpi (df : DataFrame) id (m : IdNameMapper) st :
  query_Id df id = [] ->
  no_rows (df_filter [CSotma; CSyrlighet; CFyllighet] (query_Id df id))
  /\ text_sum CSmaknoter (query_Id df id) = Cell (VInt 0)
  /\ text_sum CBismaker (query_Id df id) = Cell (VInt 0)
  /\ text_sum COvrigt (query_Id df id) = Cell (VInt 0)
  /\ aggregate df id = Raise TypeError
  /\ plot_mead_info dpi df id m st = (Raise TypeError, st).
Proof.
  intros H. split.
  { rewrite H. repeat constructor. }
  rewrite H. split; [done|]. split; [done|]. split; [done|].
  split; [by apply aggregate_no_rows | by apply plot_mead_info_no_rows].
Qed.

Lemma aggregate_no_matching_row_witness :
  query_Id Sample.mead2024_csv 99 = []
  /\ aggregate Sample.mead2024_csv 99 = Raise TypeError
  /\ plot_mead_info Sample.dpi Sample.mead2024_csv 99 Sample.resolver initial_state
     = (Raise TypeError, initial_state).
Proof.
  assert (query_Id Sample.mead2024_csv 99 = []) as H by reflexivity.
  pose proof (aggregate_no_matching_row Sample.dpi Sample.mead2024_csv 99
                Sample.resolver initial_state H) as (_ & _ & _ & _ & Ha & Hp).
  exact (conj H (conj Ha Hp)).
Defined.

(** ** Loops that make figures *)

Section Loops.

Variable dpi : float.

Lemma plot_mead_info_creates (df : DataFrame) id (m : IdNameMapper) :
  creates_one (plot_mead_info dpi df id m).
Proof.
  intros st. destruct (query_Id df id) as [|r rows] eqn:Hq.
  { right. exists TypeError, st. by apply plot_mead_info_no_rows. }
  assert (query_Id df id <> []) as Hrows by by rewrite Hq.
  destruct (_id_name_map m !! id) as [name|] eqn:Hm.
  - left. destruct (plot_mead_info_figure dpi df id m name st Hrows Hm)
      as (agg & o & _ & _ & ->).
    by eexists.
  - right. destruct (plot_mead_info_unresolved dpi df id m st Hrows Hm) as [st' ->].
    by eexists _, _.
Qed.

Lemma plot_category_creates (df : DataFrame) category (m : IdNameMapper) :
  creates_one (plot_category dpi df category m).
Proof.
  intros st. destruct (DataFrame_of_dict (groupby_Id category df)) as [d|e] eqn:Hd.
  - left. destruct (plot_category_figure dpi df category m d st Hd) as [f ->].
    by eexists.
  - right. exists e, st. by apply plot_category_raises.
Qed.

Lemma for_each_cons {A} (a : A) (l : list A) (body : A -> M unit) st :
  for_each (a :: l) body st
  = match body a st with
    | (Ok _, st1) => for_each l body st1
    | (Raise e, st1) => (Raise e, st1)
    end.
Proof.
  unfold for_each. cbn [for_fold]. unfold mbind, M_bind.
  destruct (body a st) as [[[]|e] st1]; done.
Qed.

(** A loop whose body makes one figure per round makes as many figures as
    it has rounds, numbered on from the registry's next number. *)
Lemma for_each_creates {A} (body : A -> M unit) (l : list A) st st' :
  (forall a, creates_one (body a)) ->
  for_each l body st = (Ok (), st') ->
  exists created,
    st' = set_figs (figs st ++ created) st
    /\ map fig_number created = seqZ (next_num (figs st)) (Z.of_nat (length l)).
Proof.
  intros Hbody. revert st. induction l as [|a l IH]; intros st Hrun.
  - exists []. injection Hrun as <-. by rewrite app_nil_r, set_figs_figs.
  - rewrite for_each_cons in Hrun.
    destruct (Hbody a st) as [(fig & E & Hn)|(e & st1 & E)]; rewrite E in Hrun; [|done].
    destruct (IH _ Hrun) as (created & -> & Hnums).
    exists (fig :: created). cbn [figs set_figs] in *. split.
    + by rewrite <- app_assoc.
    + rewrite next_num_snoc in Hnums by done.
      rewrite seqZ_cons by (cbn [length]; lia). cbn [map]. f_equal; [done|].
      rewrite Hnums. f_equal; cbn [length]; lia.
Qed.

Lemma for_each_always_creates {A} (body : A -> M unit) (l : list A) st :
  Forall (fun a => always_creates_one (body a)) l ->
  exists created,
    for_each l body st = (Ok (), set_figs (figs st ++ created) st)
    /\ map fig_number created = seqZ (next_num (figs st)) (Z.of_nat (length l)).
Proof.
  intros Hall. revert st. induction Hall as [|a l Ha Hl IH]; intros st.
  - exists []. by rewrite app_nil_r, set_figs_figs.
  - rewrite for_each_cons. destruct (Ha st) as (fig & -> & Hn).
    destruct (IH (set_figs (figs st ++ [fig]) st)) as (created & -> & Hnums).
    exists (fig :: created). cbn [figs set_figs] in *. split.
    + by rewrite <- app_assoc.
    + rewrite next_num_snoc in Hnums by done.
      rewrite seqZ_cons by (cbn [length]; lia). cbn [map]. f_equal; [done|].
      rewrite Hnums. f_equal; cbn [length]; lia.
Qed.

End Loops.

(** ** Saving the document *)

Section SavePdf.

Variable dpi : float.

Lemma map_page_numbers (l : list Figure) :
  map fig_number (map page l) = map fig_number l.
Proof. rewrite map_map. by apply map_ext. Qed.

Lemma filter_other n (l : list Figure) :
  n ∉ map fig_number l -> filter (fun fig => fig_number fig <> n) l = l.
Proof.
  induction l as [|f l IH]; [done|]. cbn [map].
  rewrite not_elem_of_cons. intros [Hf Hl].
  rewrite filter_cons_True by done. by rewrite IH.
Qed.

Lemma filter_same n (l : list Figure) :
  n ∉ map fig_number l -> filter (fun fig => fig_number fig = n) l = [].
Proof.
  induction l as [|f l IH]; [done|]. cbn [map].
  rewrite not_elem_of_cons. intros [Hf Hl].
  rewrite filter_cons_False by done. by apply IH.
Qed.

Lemma resize_other n w h (l : list Figure) :
  n ∉ map fig_number l ->
  map (fun fig => if decide (fig_number fig = n) then set_size_inches w h fig else fig) l
  = l.
Proof.
  induction l as [|f l IH]; [done|]. cbn [map].
  rewrite not_elem_of_cons. intros [Hf Hl].
  rewrite decide_False by done. by rewrite IH.
Qed.

Lemma find_figure_head fig (rest : list Figure) :
  find_figure (fig_number fig) (fig :: rest) = Some fig.
Proof. unfold find_figure. by rewrite filter_cons_True. Qed.

Lemma activate_head fig (rest : list Figure) :
  fig_number fig ∉ map fig_number rest ->
  activate (fig_number fig) (fig :: rest) = rest ++ [fig].
Proof.
  intros H. unfold activate.
  rewrite filter_cons_False by (intros Hne; by apply Hne).
  rewrite filter_cons_True by done.
  by rewrite filter_other, filter_same.
Qed.

Lemma find_figure_last fig (rest : list Figure) :
  fig_number fig ∉ map fig_number rest ->
  find_figure (fig_number fig) (rest ++ [fig]) = Some fig.
Proof.
  intros H. unfold find_figure.
  rewrite filter_app, filter_same by done.
  by rewrite filter_cons_True.
Qed.

Lemma activate_last fig (rest : list Figure) :
  fig_number fig ∉ map fig_number rest ->
  activate (fig_number fig) (rest ++ [fig]) = rest ++ [fig].
Proof.
  intros H. unfold activate.
  rewrite !filter_app, filter_other, filter_same by done.
  rewrite filter_cons_False by (intros Hne; by apply Hne).
  rewrite filter_cons_True by done.
  by rewrite filter_nil, app_nil_r.
Qed.

(** One round of the loop of the "Save pdf" block, on the figure at the
    head of the registry. *)
Lemma save_round pages fig (rest : list Figure) st :
  figs st = fig :: rest ->
  fig_number fig ∉ map fig_number rest ->
  (fig' ← plt_figure_num dpi (fig_number fig);
   fig_set_size_inches (fig_number fig)
     (1920 / fig_dpi fig')%float (1080 / fig_dpi fig')%float;;
   page ← pdf_savefig (fig_number fig);
   mret (pages ++ [page])) st
  = (Ok (pages ++ [page fig]), set_figs (rest ++ [page fig]) st).
Proof.
  intros E Hn. unfold mbind, M_bind, plt_figure_num.
  rewrite E, find_figure_head, activate_head by done.
  unfold fig_set_size_inches. cbn [figs set_figs].
  rewrite map_app, resize_other by done. cbn [map].
  rewrite decide_True by done.
  unfold pdf_savefig. cbn [figs set_figs].
  fold (page fig).
  rewrite (find_figure_last (page fig)), (activate_last (page fig)) by done.
  done.
Qed.

Lemma save_loop (todo done : list Figure) pages st :
  figs st = todo ++ map page done ->
  NoDup (map fig_number (todo ++ done)) ->
  for_fold (map fig_number todo) (fun pages n =>
     fig ← plt_figure_num dpi n;
     fig_set_size_inches n (1920 / fig_dpi fig)%float (1080 / fig_dpi fig)%float;;
     page ← pdf_savefig n;
     mret (pages ++ [page])) pages st
  = (Ok (pages ++ map page todo), set_figs (map page done ++ map page todo) st).
Proof.
  revert done pages st. induction todo as [|fig todo IH]; intros don pages st E Hnd.
  - cbn [map for_fold app] in *. rewrite !app_nil_r. rewrite <- E.
    by rewrite set_figs_figs.
  - cbn [map for_fold]. unfold mbind at 1. unfold M_bind at 1.
    assert (fig_number fig ∉ map fig_number (todo ++ map page don)) as Hn.
    { rewrite map_app, map_page_numbers, <- map_app.
      cbn [app map] in Hnd. by apply NoDup_cons in Hnd as [? _]. }
    rewrite (save_round pages fig (todo ++ map page don) st E Hn).
    rewrite (IH (don ++ [fig]) (pages ++ [page fig])).
    + cbn [set_figs figs style files]. rewrite map_app. cbn [map].
      by rewrite <- !app_assoc.
    + cbn [figs set_figs]. rewrite map_app. cbn [map]. by rewrite <- app_assoc.
    + cbn [app map] in Hnd. rewrite app_assoc, map_app. cbn [map].
      apply NoDup_app. apply NoDup_cons in Hnd as [Hf Hnd].
      split; [done|]. split; [|apply NoDup_singleton].
      intros x Hx ->%list_elem_of_singleton. done.
Qed.

Lemma merge_sort_sorted (l : list Z) : StronglySorted Z.lt l -> merge_sort Z.le l = l.
Proof.
  intros H. apply (Sorted_unique Z.le).
  - apply Sorted_merge_sort. apply _.
  - induction H as [|x l Hl IH Hx]; [constructor|].
    constructor; [done|].
    destruct l as [|y l]; constructor.
    inversion Hx; subst. lia.
  - apply merge_sort_Permutation.
Qed.

Lemma StronglySorted_lt_NoDup (l : list Z) : StronglySorted Z.lt l -> NoDup l.
Proof.
  induction 1 as [|x l Hl IH Hx]; [apply NoDup_nil_2|].
  apply NoDup_cons. split; [|done].
  intros Hin. rewrite Forall_forall in Hx. specialize (Hx x Hin). lia.
Qed.

(** With the registry in creation order, the document holds one page per
    figure of the registry, in that order. *)
Lemma save_pdf_pages name st :
  StronglySorted Z.lt (map fig_number (figs st)) ->
  save_pdf dpi name st
  = (Ok (), {| figs := map page (figs st); style := style st;
               files := files st ++ [(name, map page (figs st))] |}).
Proof.
  intros Hs. unfold save_pdf. unfold mbind at 1. unfold M_bind at 1.
  unfold plt_get_fignums. rewrite merge_sort_sorted by done.
  unfold mbind at 1. unfold M_bind at 1.
  rewrite (save_loop (figs st) [] [] st).
  - by destruct st.
  - by rewrite app_nil_r.
  - rewrite app_nil_r. by apply StronglySorted_lt_NoDup.
Qed.

End SavePdf.

(** ** Report Driver *)

Section Driver.

Variable dpi : float.
Variable set_iter : list Z -> list Z.

Lemma bind_Ok {A B} (m : M A) (k : A -> M B) st b st' :
  (m ≫= k) st = (Ok b, st') ->
  exists a st1, m st = (Ok a, st1) /\ k a st1 = (Ok b, st').
Proof.
  unfold mbind, M_bind. destruct (m st) as [[a|e] st1]; [|done].
  intros H. by exists a, st1.
Qed.

Lemma on_gcf_last f fs fig sty fl :
  on_gcf dpi f {| figs := fs ++ [fig]; style := sty; files := fl |}
  = (Ok (), {| figs := fs ++ [f fig]; style := sty; files := fl |}).
Proof.
  exact (draws_on_gcf dpi f {| figs := fs ++ [fig]; style := sty; files := fl |}
           fs fig eq_refl).
Qed.

(** The loop body starts with the title page. *)
Lemma plot_instance_title inst st :
  plot_instance dpi set_iter inst st
  = (for_each (set_iter (merge_sort Z.le (map Id (mead_data_csv inst)))) (fun id =>
       plot_mead_info dpi (mead_data_csv inst) id
         {| _id_name_map := to_dict (id_name_map_csv inst) |});;
     for_each [CSotma; CSyrlighet; CFyllighet; CHelhetsbetyg] (fun category =>
       plot_category dpi (mead_data_csv inst) category
         {| _id_name_map := to_dict (id_name_map_csv inst) |}))
      {| figs := figs st ++ [title_figure dpi (next_num (figs st)) (instance_folder inst)];
         style := Some (str "Solarize_Light2"); files := files st |}.
Proof.
  unfold plot_instance. cbv zeta.
  unfold mbind at 1. unfold M_bind at 1. unfold plt_style_use at 1.
  unfold mbind at 1. unfold M_bind at 1. unfold plt_figure at 1.
  unfold mbind at 1. unfold M_bind at 1.
  unfold set_figs, plt_figtext. cbn [figs style files].
  by rewrite on_gcf_last.
Qed.

Lemma numbered_length (created : list Figure) n k :
  map fig_number created = seqZ n (Z.of_nat k) -> length created = k.
Proof.
  intros H. apply (f_equal length) in H.
  rewrite length_map, length_seqZ, Nat2Z.id in H. done.
Qed.

Lemma next_num_app (fs created : list Figure) k :
  map fig_number created = seqZ (next_num fs) (Z.of_nat k) ->
  next_num (fs ++ created) = next_num fs + Z.of_nat k.
Proof.
  revert fs k. induction created as [|c cs IH]; intros fs k H.
  - apply numbered_length in H. subst k. rewrite app_nil_r. simpl. lia.
  - pose proof (numbered_length _ _ _ H) as Hk. destruct k as [|k]; [done|].
    rewrite seqZ_cons in H by lia. cbn [map] in H. injection H as Hc Hcs.
    replace (Z.pred (Z.of_nat (S k))) with (Z.of_nat k) in Hcs by lia.
    replace (fs ++ c :: cs) with ((fs ++ [c]) ++ cs) by by rewrite <- app_assoc.
    rewrite (IH (fs ++ [c]) k).
    + rewrite next_num_snoc by done. lia.
    + rewrite next_num_snoc by done. exact Hcs.
Qed.

(** Figures numbered on from the registry's next number keep the registry
    in creation order. *)
Lemma sorted_extend (fs created : list Figure) k :
  StronglySorted Z.lt (map fig_number fs) ->
  map fig_number created = seqZ (next_num fs) (Z.of_nat k) ->
  StronglySorted Z.lt (map fig_number (fs ++ created)).
Proof.
  intros Hs Hc. rewrite map_app, Hc. apply StronglySorted_app_2; [|done|].
  - intros x1 x2 H1 H2%elem_of_seqZ.
    apply list_elem_of_fmap in H1 as (fig & -> & Hfig).
    pose proof (next_num_above fs) as Ha. rewrite Forall_forall in Ha.
    specialize (Ha fig Hfig). lia.
  - generalize (next_num fs). clear. induction k as [|k IH]; intros n.
    + rewrite seqZ_nil by lia. constructor.
    + rewrite seqZ_cons by lia. constructor.
      * replace (Z.pred (Z.of_nat (S k))) with (Z.of_nat k) by lia. apply IH.
      * apply Forall_seqZ. intros; lia.
Qed.

(** What a completed plotting phase leaves: the figures it created, after
    those the registry held, numbered on in creation order. *)
Lemma plot_instance_created inst st st1 :
  plot_instance dpi set_iter inst st = (Ok (), st1) ->
  exists created,
    st1 = {| figs := figs st ++ created; style := Some (str "Solarize_Light2");
             files := files st |}
    /\ map fig_number created
       = seqZ (next_num (figs st))
           (Z.of_nat (1 + length (set_iter (merge_sort Z.le (map Id (mead_data_csv inst)))) + 4)).
Proof.
  rewrite plot_instance_title. intros H.
  apply bind_Ok in H as ([] & st2 & H1 & H2).
  apply for_each_creates in H1 as (c1 & -> & N1); [|intros; apply plot_mead_info_creates].
  apply for_each_creates in H2 as (c2 & -> & N2); [|intros; apply plot_category_creates].
  cbn [figs set_figs style files] in *.
  set (t := title_figure dpi (next_num (figs st)) (instance_folder inst)) in *.
  set (k := length (set_iter (merge_sort Z.le (map Id (mead_data_csv inst))))) in *.
  assert (next_num (figs st ++ [t]) = next_num (figs st) + 1) as Ht
    by by apply next_num_snoc.
  rewrite Ht in N1.
  assert (next_num ((figs st ++ [t]) ++ c1) = next_num (figs st) + 1 + Z.of_nat k) as Hc1.
  { rewrite (next_num_app _ c1 k); [lia|]. by rewrite Ht. }
  rewrite Hc1 in N2.
  exists (t :: c1 ++ c2). split.
  - f_equal. rewrite <- !app_assoc. done.
  - cbn [map]. rewrite map_app, N1, N2.
    replace (Z.of_nat (1 + k + 4)) with (1 + (Z.of_nat k + 4)) by lia.
    rewrite seqZ_app by lia. rewrite (seqZ_app _ (Z.of_nat k)) by lia.
    rewrite (seqZ_cons _ 1) by lia. rewrite (seqZ_nil _ (Z.pred 1)) by lia.
    cbn [app length Z.of_nat]. done.
Qed.

(** The document of an instance holds every figure of the registry: those
    left by earlier instances, then those this instance created. *)
Lemma process_instance_document inst st st' :
  StronglySorted Z.lt (map fig_number (figs st)) ->
  process_instance dpi set_iter inst st = (Ok (), st') ->
  exists created,
    plot_instance dpi set_iter inst st
    = (Ok (), {| figs := figs st ++ created; style := Some (str "Solarize_Light2");
                 files := files st |})
    /\ map fig_number created
       = seqZ (next_num (figs st))
           (Z.of_nat (1 + length (set_iter (merge_sort Z.le (map Id (mead_data_csv inst)))) + 4))
    /\ st' = {| figs := map page (figs st ++ created);
                style := Some (str "Solarize_Light2");
                files := files st ++
                  [(instance_folder inst ++ str ".pdf", map page (figs st ++ created))] |}.
Proof.
  intros Hs H. unfold process_instance in H.
  apply bind_Ok in H as ([] & st1 & H1 & H2).
  destruct (plot_instance_created inst st st1 H1) as (created & -> & Hn).
  exists created. split; [done|]. split; [done|].
  rewrite save_pdf_pages in H2.
  - by injection H2 as <-.
  - cbn [figs]. by eapply sorted_extend.
Qed.

End Driver.

(** ** Documents *)

(** X17: an instance processed on a registry in creation order (as every
    instance of a run finds it). The figures made during its processing get
    the numbers following those of the registry, in the order they are made;
    its document holds the pages of the figures the registry already held
    and then one page for each figure made, in that order; no number occurs
    twice among them, and every figure is still in the registry afterwards. *)
Theorem instance_document_pages dpi set_iter inst st st' :
  StronglySorted Z.lt (map fig_number (figs st)) ->
  process_instance dpi set_iter inst st = (Ok (), st') ->
  exists created : list Figure,
    plot_instance dpi set_iter inst st
    = (Ok (), {| figs := figs st ++ created; style := Some (str "Solarize_Light2");
                 files := files st |})
    /\ map fig_number created = seqZ (next_num (figs st)) (Z.of_nat (length created))
    /\ files st'
       = files st ++ [(instance_folder inst ++ str ".pdf",
                       map page (figs st) ++ map page created)]
    /\ map fig_number (map page created) = map fig_number created
    /\ NoDup (map fig_number (figs st ++ created))
    /\ figs st' = map page (figs st) ++ map page created.
Proof.
  intros Hs Hrun.
  destruct (process_instance_document dpi set_iter inst st st' Hs Hrun)
    as (created & Hp & Hn & ->).
  exists created. cbn [files figs]. rewrite map_app.
  split; [done|]. split; [by rewrite Hn, (numbered_length _ _ _ Hn)|].
  split; [done|]. split; [apply map_page_numbers|]. split; [|done].
  apply StronglySorted_lt_NoDup. by eapply sorted_extend.
Qed.

Lemma instance_document_pages_witness :
  let st := snd (process_instance Sample.dpi CPythonSet.set_iter Sample.mead2025
                   initial_state) in
  let st' := snd (process_instance Sample.dpi CPythonSet.set_iter Sample.mead2024 st) in
  StronglySorted Z.lt (map fig_number (figs st))
  /\ process_instance Sample.dpi CPythonSet.set_iter Sample.mead2024 st = (Ok (), st')
  /\ exists created : list Figure,
       plot_instance Sample.dpi CPythonSet.set_iter Sample.mead2024 st
       = (Ok (), {| figs := figs st ++ created; style := Some (str "Solarize_Light2");
                    files := files st |})
       /\ map fig_number created = seqZ (next_num (figs st)) (Z.of_nat (length created))
       /\ files st'
          = files st ++ [(instance_folder Sample.mead2024 ++ str ".pdf",
                          map page (figs st) ++ map page created)]
       /\ map fig_number (map page created) = map fig_number created
       /\ NoDup (map fig_number (figs st ++ created))
       /\ figs st' = map page (figs st) ++ map page created.
Proof.
  cbv zeta.
  set (st := snd (process_instance Sample.dpi CPythonSet.set_iter Sample.mead2025
                    initial_state)).
  assert (StronglySorted Z.lt (map fig_number (figs st))) as Hs
    by (apply (bool_decide_unpack _); vm_compute; exact I).
  assert (process_instance Sample.dpi CPythonSet.set_iter Sample.mead2024 st
          = (Ok (), snd (process_instance Sample.dpi CPythonSet.set_iter Sample.mead2024
                           st))) as H
    by (vm_compute; reflexivity).
  exact (conj Hs (conj H
    (instance_document_pages Sample.dpi CPythonSet.set_iter Sample.mead2024 st _ Hs H))).
Defined.

(** C1, evaluated: a run over the two instance folders mead2025 and
    mead2024. After the first instance the registry still holds its seven
    figures, and the document of the second instance has fourteen pages, the
    first seven being the pages of the first instance's document: the
    figures 1 to 7 are in both documents. *)
Lemma registry_not_cleared :
  let st1 := snd (process_instance Sample.dpi CPythonSet.set_iter Sample.mead2025
                    initial_state) in
  let st2 := snd (main Sample.dpi CPythonSet.set_iter [Sample.mead2025; Sample.mead2024]
                    initial_state) in
  fst (main Sample.dpi CPythonSet.set_iter [Sample.mead2025; Sample.mead2024]
         initial_state) = Ok ()
  /\ map fig_number (figs st1) = [1; 2; 3; 4; 5; 6; 7]
  /\ map fst (files st2) = [str "mead2025.pdf"; str "mead2024.pdf"]
  /\ map (fun d => map fig_number (snd d)) (files st2)
     = [[1; 2; 3; 4; 5; 6; 7]; [1; 2; 3; 4; 5; 6; 7; 8; 9; 10; 11; 12; 13; 14]]
  /\ map (fun d => take 7 (snd d)) (files st2) = [figs st1; figs st1].
Proof. vm_compute. repeat split. Qed.

(** C3, evaluated: on a ratings table with the identifiers 1 and 8 the set
    is visited 8 first, so the figure of mead 8 is made before that of
    mead 1. *)
Lemma identifiers_1_8_visited_descending :
  CPythonSet.set_iter (merge_sort Z.le (map Id (mead_data_csv Sample.mead2025))) = [8; 1]
  /\ map (fun fig => sup_s <$> fig_suptitle fig)
         (figs (snd (process_instance Sample.dpi CPythonSet.set_iter Sample.mead2025
                       initial_state)))
     = [None; Some (str "(8) Theta"); Some (str "(1) Alpha"); None; None; None; None].
Proof. vm_compute. split; reflexivity. Qed.

(** ** A run that completes *)

Section Completion.

Variable dpi : float.
Variable set_iter : list Z -> list Z.

Lemma query_Id_not_nil (df : DataFrame) x : x ∈ map Id df -> query_Id df x <> [].
Proof.
  intros (r & -> & Hr)%list_elem_of_fmap.
  assert (r ∈ query_Id df (Id r)) as Hin by by apply list_elem_of_filter.
  intros E. rewrite E in Hin. by apply elem_of_nil in Hin.
Qed.

Lemma resolves_lookup (m : gmap Z pystr) (df : DataFrame) x :
  resolves m df -> x ∈ map Id df -> is_Some (m !! x).
Proof.
  unfold resolves. rewrite Forall_forall.
  intros H (r & -> & Hr)%list_elem_of_fmap. by apply H.
Qed.

Lemma plot_mead_info_always (df : DataFrame) id (m : IdNameMapper) :
  query_Id df id <> [] -> is_Some (_id_name_map m !! id) ->
  always_creates_one (plot_mead_info dpi df id m).
Proof.
  intros Hrows [name Hm] st.
  destruct (plot_mead_info_figure dpi df id m name st Hrows Hm)
    as (agg & o & _ & _ & ->).
  by eexists.
Qed.

Lemma group_keys_ids (df : DataFrame) k : k ∈ group_keys df -> k ∈ map Id df.
Proof.
  unfold group_keys. rewrite merge_sort_Permutation. by rewrite elem_of_remove_dups.
Qed.

(** On a balanced table the frame of a category plot can be built. *)
Lemma balanced_frame (df : DataFrame) category :
  balanced df -> exists d, DataFrame_of_dict (groupby_Id category df) = Ok d.
Proof.
  intros Hb. unfold DataFrame_of_dict.
  destruct (groupby_Id category df) as [|[k0 l0] d] eqn:E; [by eexists|].
  assert (forallb (fun kv : Z * list value => Nat.eqb (length (snd kv)) (length l0))
            ((k0, l0) :: d) = true) as ->; [|by eexists].
  rewrite <- E. apply forallb_forall. intros [k l] Hin.
  apply list_elem_of_In in Hin.
  assert ((k0, l0) ∈ groupby_Id category df) as Hin0 by (rewrite E; constructor).
  unfold groupby_Id in Hin, Hin0.
  apply list_elem_of_fmap in Hin as (k' & [= -> ->] & Hk).
  apply list_elem_of_fmap in Hin0 as (k0' & [= -> ->] & Hk0).
  apply group_keys_ids, list_elem_of_fmap in Hk as (r & -> & Hr).
  apply group_keys_ids, list_elem_of_fmap in Hk0 as (r0 & -> & Hr0).
  cbn [snd]. rewrite !length_map. apply Nat.eqb_eq.
  unfold balanced in Hb. rewrite Forall_forall in Hb.
  specialize (Hb r Hr). rewrite Forall_forall in Hb. by apply Hb.
Qed.

Lemma plot_category_always (df : DataFrame) category (m : IdNameMapper) :
  balanced df -> always_creates_one (plot_category dpi df category m).
Proof.
  intros Hb st. destruct (balanced_frame df category Hb) as [d Hd].
  destruct (plot_category_figure dpi df category m d st Hd) as [f ->].
  by eexists.
Qed.

(** Under the set's contract the loop over the identifiers has one round
    per distinct identifier. *)
Lemma set_iter_rounds (ids : list Z) :
  set_contract set_iter (merge_sort Z.le ids) ->
  length (set_iter (merge_sort Z.le ids)) = size (list_to_set ids : gset Z).
Proof.
  intros (Hnd & Hsub & Hsup).
  rewrite <- (size_list_to_set (C := gset Z)) by done. f_equal.
  apply set_eq. intros x. rewrite !elem_of_list_to_set.
  rewrite Forall_forall in Hsub, Hsup. split.
  - intros H. apply Hsub in H. by rewrite merge_sort_Permutation in H.
  - intros H. apply Hsup. by rewrite merge_sort_Permutation.
Qed.

Lemma plot_instance_completes inst st :
  set_contract set_iter (merge_sort Z.le (map Id (mead_data_csv inst))) ->
  resolves (to_dict (id_name_map_csv inst)) (mead_data_csv inst) ->
  balanced (mead_data_csv inst) ->
  exists st1, plot_instance dpi set_iter inst st = (Ok (), st1).
Proof.
  intros (Hnd & Hsub & Hsup) Hres Hbal. rewrite plot_instance_title.
  unfold mbind, M_bind.
  edestruct (for_each_always_creates
               (fun id => plot_mead_info dpi (mead_data_csv inst) id
                            {| _id_name_map := to_dict (id_name_map_csv inst) |})
               (set_iter (merge_sort Z.le (map Id (mead_data_csv inst)))))
    as (c1 & -> & _).
  { rewrite Forall_forall in Hsub. apply Forall_forall. intros id Hid.
    apply Hsub in Hid. rewrite merge_sort_Permutation in Hid.
    apply plot_mead_info_always; [by apply query_Id_not_nil|].
    by eapply resolves_lookup. }
  edestruct (for_each_always_creates
               (fun category => plot_category dpi (mead_data_csv inst) category
                            {| _id_name_map := to_dict (id_name_map_csv inst) |})
               [CSotma; CSyrlighet; CFyllighet; CHelhetsbetyg])
    as (c2 & -> & _).
  { repeat constructor; by apply plot_category_always. }
  by eexists.
Qed.

End Completion.

(** The documented end-to-end case: two identifiers give seven pages. *)
Example mead2024_seven_pages :
  size (list_to_set (map Id (mead_data_csv Sample.mead2024)) : gset Z) = 2%nat
  /\ map (fun d => (fst d, length (snd d)))
         (files (snd (process_instance Sample.dpi CPythonSet.set_iter Sample.mead2024
                        initial_state)))
     = [(str "mead2024.pdf", 7%nat)].
Proof. vm_compute. split; reflexivity. Qed.

(** * Further properties of the code *)

(** ** Tokens of the Text Normalizer *)

Section Tokens.

Implicit Types (s t w : pystr) (c : char).

Lemma single_spaced_nonspace c t :
  isspace c = false -> single_spaced (c :: t) = single_spaced t.
Proof. intros H. cbn [single_spaced]. by rewrite H. Qed.

Lemma single_spaced_word w t :
  Forall (fun c => isspace c = false) w ->
  single_spaced (w ++ t) = single_spaced t.
Proof.
  induction 1 as [|c w Hc Hw IH]; [done|].
  rewrite <- app_comm_cons, single_spaced_nonspace by done. exact IH.
Qed.

(** Words joined by single spaces are in normal form. *)
Lemma join_words_normalized (l : list pystr) :
  Forall (fun w => w <> [] /\ Forall (fun c => isspace c = false) w) l ->
  is_normalized (join [space] l) = true.
Proof.
  intros Hall.
  assert (single_spaced (join [space] l) = true) as Hs.
  { induction Hall as [|w l [Hw Hcs] Hl IH]; [done|].
    destruct l as [|w' l].
    - cbn [join]. rewrite <- (app_nil_r w). by rewrite single_spaced_word.
    - rewrite join_cons by done. rewrite single_spaced_word by done.
      destruct (join_words_ends (w' :: l)) as [(c & t & E & Hc) _]; [done|done|].
      rewrite E in IH |- *. cbn [app single_spaced] in *.
      change (isspace space) with true. cbn iota.
      rewrite N.eqb_refl, Hc. cbn [negb andb].
      rewrite Hc in IH. exact IH. }
  unfold is_normalized. rewrite Hs, andb_true_r.
  destruct l as [|w l]; [done|].
  destruct (join_words_ends (w :: l)) as [(c & t & E & Hc) _]; [done|done|].
  rewrite E. by rewrite Hc.
Qed.

Lemma joined_chars x c : c ∈ joined x -> c = space \/ c ∈ x.
Proof.
  intros Hc. destruct (isspace c) eqn:Hsp.
  - unfold joined in Hc.
    assert (forall l : list pystr,
              Forall (fun w => w <> [] /\ Forall (fun c => isspace c = false) w) l ->
              c ∈ join [space] l -> c = space) as Hjoin.
    { clear Hc. induction 1 as [|w l [Hw Hcs] Hl IH]; [by intros ?%elem_of_nil|].
      destruct l as [|w' l].
      - cbn [join]. intros Hin. rewrite Forall_forall in Hcs.
        specialize (Hcs c Hin). congruence.
      - rewrite join_cons by done. rewrite !elem_of_app.
        intros [Hin|[Hin|Hin]].
        + rewrite Forall_forall in Hcs. specialize (Hcs c Hin). congruence.
        + by apply list_elem_of_singleton in Hin.
        + by apply IH. }
    left. apply (Hjoin (split_whitespace x)); [apply split_ws_words|exact Hc].
  - right.
    assert (c ∈ filter (fun c => isspace c = false) (joined x)) as Hf
      by by apply list_elem_of_filter.
    rewrite joined_keeps_nonspace in Hf. by apply list_elem_of_filter in Hf as [_ ?].
Qed.

Lemma split_sep_free sep t : sep ∉ t -> split_sep sep t = [t].
Proof.
  induction t as [|c t IH]; [done|].
  rewrite not_elem_of_cons. intros [Hc Ht]. cbn [split_sep].
  destruct (N.eqb_spec c sep) as [->|_]; [done|]. by rewrite IH.
Qed.

Lemma split_sep_app sep t s :
  sep ∉ t -> split_sep sep (t ++ sep :: s) = t :: split_sep sep s.
Proof.
  induction t as [|c t IH].
  - intros _. apply split_sep_cons_sep.
  - rewrite not_elem_of_cons. intros [Hc Ht].
    rewrite <- app_comm_cons. cbn [split_sep].
    destruct (N.eqb_spec c sep) as [->|_]; [done|]. by rewrite IH.
Qed.

(** Splitting undoes joining, for pieces free of the separator. *)
Lemma split_sep_join sep (l : list pystr) :
  l <> [] -> Forall (fun p => sep ∉ p) l -> split_sep sep (join [sep] l) = l.
Proof.
  intros Hne Hall. induction Hall as [|p l Hp Hl IH]; [done|].
  destruct l as [|p' l].
  - cbn [join]. by apply split_sep_free.
  - rewrite join_cons by done. cbn [app].
    rewrite split_sep_app by done. by rewrite IH.
Qed.

(** A token in normal form is left as it is. *)
Lemma joined_normalized t : is_normalized t = true -> joined t = t.
Proof.
  assert (forall t, single_spaced t = true ->
            joined t = match t with
                       | c :: t' => if isspace c then t' else t
                       | [] => []
                       end) as H.
  { clear t. induction t as [|c t IH]; [done|]. intros Hs.
    cbn [single_spaced] in Hs. apply andb_true_iff in Hs as [Hc Ht].
    specialize (IH Ht). destruct (isspace c) eqn:Hsp.
    - rewrite joined_space by done.
      apply andb_true_iff in Hc as [_ Hnext].
      destruct t as [|c' t]; [done|]. apply negb_true_iff in Hnext.
      by rewrite IH, Hnext.
    - destruct t as [|c' t].
      + unfold joined. by rewrite split_ws_single.
      + destruct (isspace c') eqn:Hsp'.
        * cbn [single_spaced] in Ht. rewrite Hsp' in Ht.
          apply andb_true_iff in Ht as [Hc' _].
          apply andb_true_iff in Hc' as [->%N.eqb_eq Hnext].
          destruct t as [|c'' t]; [done|]. apply negb_true_iff in Hnext.
          rewrite joined_break by done.
          rewrite split_ws_space by done.
          pose proof (split_ws_not_nil c'' t Hnext) as Hnn.
          destruct (split_whitespace (c'' :: t)); [done|]. by rewrite IH.
        * rewrite joined_cont by done. by rewrite IH. }
  unfold is_normalized. intros [Hhead Hs]%andb_true_iff.
  rewrite (H t Hs). destruct t as [|c t]; [done|].
  apply negb_true_iff in Hhead. by rewrite Hhead.
Qed.

End Tokens.

Lemma clean_split_tokens (v : value) :
  Forall (fun tok => is_normalized tok = true /\ semicolon ∉ tok) (clean_split v).
Proof.
  destruct v as [s| | | |]; try constructor.
  cbn [clean_split]. apply Forall_map.
  eapply Forall_impl; [apply (split_sep_no_sep semicolon s)|].
  intros p Hp. cbn beta. split.
  - apply join_words_normalized, split_ws_words.
  - intros [E|Hin]%joined_chars; [discriminate E|done].
Qed.

Lemma clean_split_of_tokens (toks : list pystr) :
  toks <> [] ->
  Forall (fun tok => is_normalized tok = true /\ semicolon ∉ tok) toks ->
  clean_split (VStr (join [semicolon] toks)) = toks.
Proof.
  intros Hne Hall. cbn [clean_split].
  rewrite split_sep_join; [|done|by eapply Forall_impl; [exact Hall|intros ? []]].
  rewrite <- (map_id toks) at 2. apply map_ext_Forall.
  eapply Forall_impl; [exact Hall|]. intros t [Ht _]. by apply joined_normalized.
Qed.

(** X1: every token the normalizer returns is in normal form (no
    whitespace at its ends, single spaces between its words) and holds no
    semicolon. *)
Theorem clean_split_tokens_normalized (v : value) :
  Forall (fun tok => is_normalized tok = true /\ semicolon ∉ tok) (clean_split v).
Proof. apply clean_split_tokens. Qed.

(** X2: joining tokens in normal form with semicolons and normalizing the
    result gives the tokens back. *)
Theorem clean_split_join_round_trip (toks : list pystr) :
  toks <> [] ->
  Forall (fun tok => is_normalized tok = true /\ semicolon ∉ tok) toks ->
  clean_split (VStr (join [semicolon] toks)) = toks.
Proof. apply clean_split_of_tokens. Qed.

Lemma clean_split_join_round_trip_witness :
  [str "ljus frukt"; str ""; str "honung"] <> []
  /\ Forall (fun tok => is_normalized tok = true /\ semicolon ∉ tok)
            [str "ljus frukt"; str ""; str "honung"]
  /\ clean_split (VStr (join [semicolon] [str "ljus frukt"; str ""; str "honung"]))
     = [str "ljus frukt"; str ""; str "honung"].
Proof.
  assert ([str "ljus frukt"; str ""; str "honung"] <> []) as H1 by discriminate.
  assert (Forall (fun tok => is_normalized tok = true /\ semicolon ∉ tok)
            [str "ljus frukt"; str ""; str "honung"]) as H2
    by (apply (bool_decide_unpack _); vm_compute; exact I).
  exact (conj H1 (conj H2 (clean_split_join_round_trip _ H1 H2))).
Defined.

(** X3: normalizing is idempotent: the tokens of a string, joined with
    semicolons and normalized again, are the same tokens. *)
Theorem clean_split_idempotent (s : pystr) :
  clean_split (VStr (join [semicolon] (clean_split (VStr s)))) = clean_split (VStr s).
Proof.
  apply clean_split_of_tokens; [|apply clean_split_tokens].
  cbn [clean_split]. pose proof (split_sep_not_nil semicolon s).
  by destruct (split_sep semicolon s).
Qed.

(** ** Order of a frequency table *)

Section CounterOrder.

Implicit Types (c : Counter) (e : pystr) (l : list pystr).

Lemma counter_keys_incr_order e c :
  counter_keys (counter_incr e c)
  = if decide (e ∈ counter_keys c) then counter_keys c else counter_keys c ++ [e].
Proof.
  unfold counter_keys. induction c as [|[k n] c IH]; [done|].
  cbn [counter_incr]. destruct (decide (k = e)) as [->|Hke].
  - cbn [map fst]. rewrite decide_True; [done|apply elem_of_cons; by left].
  - cbn [map fst]. rewrite IH.
    destruct (decide (e ∈ map fst c)) as [Hin|Hout].
    + rewrite decide_True; [done|apply elem_of_cons; by right].
    + rewrite decide_False; [done|].
      intros [->|?]%elem_of_cons; done.
Qed.

Lemma counter_keys_update_order l c :
  counter_keys (counter_update c l)
  = counter_keys c ++ filter (fun x => x ∉ counter_keys c) (first_occurrences l).
Proof.
  revert c. induction l as [|e l IH]; intros c.
  - cbn. by rewrite app_nil_r.
  - cbn [counter_update fold_left first_occurrences].
    fold (counter_update (counter_incr e c) l). rewrite IH.
    rewrite counter_keys_incr_order. rewrite filter_cons.
    rewrite list_filter_filter.
    destruct (decide (e ∈ counter_keys c)) as [Hin|Hout].
    + rewrite decide_False by (intros Hn; by apply Hn). f_equal.
      apply list_filter_iff. intros x. split; [|by intros [? _]].
      intros Hx. split; [done|]. by intros ->.
    + rewrite decide_True by done. rewrite <- app_assoc. cbn [app]. do 2 f_equal.
      apply list_filter_iff. intros x. rewrite elem_of_app, list_elem_of_singleton.
      tauto.
Qed.

(** The keys of [Counter(l)] are the distinct items of [l], first seen
    first. *)
Lemma Counter_new_order l :
  exists c, Counter_new (PyList l) = Ok c /\ counter_keys c = first_occurrences l.
Proof.
  exists (counter_update [] l). split; [done|].
  rewrite counter_keys_update_order. cbn [counter_keys map app].
  induction (first_occurrences l) as [|x k IH]; [done|].
  rewrite filter_cons_True by (by intros ?%elem_of_nil). by rewrite IH.
Qed.

End CounterOrder.

(** X4: for an identifier with a matching row, each frequency table lists
    its tokens in the order of their first occurrence in the flattened
    normalized fields, which is the order their lines are written in. *)
Theorem aggregate_tables_first_seen_order (df : DataFrame) (id : Z) :
  query_Id df id <> [] ->
  exists agg,
    aggregate df id = Ok agg
    /\ counter_keys (notes agg)
       = first_occurrences
           (concat (map (fun r => clean_split (Smaknoter r)) (query_Id df id)))
    /\ counter_keys (off_flavors agg)
       = first_occurrences
           (concat (map (fun r => clean_split (Bismaker r)) (query_Id df id))).
Proof.
  intros Hrows. unfold aggregate. rewrite !text_sum_rows by done.
  destruct (Counter_new_order
              (concat (map (fun r => clean_split (cell CSmaknoter r)) (query_Id df id))))
    as (n & -> & Hn).
  destruct (Counter_new_order
              (concat (map (fun r => clean_split (cell CBismaker r)) (query_Id df id))))
    as (o & -> & Ho).
  eexists. split; [reflexivity|]. cbn [notes off_flavors]. by split.
Qed.

Lemma aggregate_tables_first_seen_order_witness :
  query_Id Sample.mead2024_csv 1 <> []
  /\ exists agg,
       aggregate Sample.mead2024_csv 1 = Ok agg
       /\ counter_keys (notes agg)
          = first_occurrences
              (concat (map (fun r => clean_split (Smaknoter r))
                           (query_Id Sample.mead2024_csv 1)))
       /\ counter_keys (off_flavors agg)
          = first_occurrences
              (concat (map (fun r => clean_split (Bismaker r))
                           (query_Id Sample.mead2024_csv 1))).
Proof.
  assert (query_Id Sample.mead2024_csv 1 <> []) as H by (vm_compute; discriminate).
  exact (conj H (aggregate_tables_first_seen_order Sample.mead2024_csv 1 H)).
Defined.

(** ** The text blocks of [write_counter] and [write_list] *)

Section TextBlocks.

Variable dpi : float.

Lemma default_last_cons {A} (a d : A) (l : list A) :
  default d (last (a :: l)) = default a (last l).
Proof.
  revert a d. induction l as [|b l IH]; intros a d; [done|].
  change (last (a :: b :: l)) with (last (b :: l)).
  by rewrite (IH b d), (IH b a).
Qed.

Lemma line_texts_heights x y lines :
  descends (y :: map text_y (fst (line_texts x y lines)))
  /\ snd (line_texts x y lines)
     = default y (last (map text_y (fst (line_texts x y lines)))).
Proof.
  revert y. induction lines as [|l lines IH]; intros y; [done|].
  cbn [line_texts fst snd map text_y].
  destruct (IH (y - 0.04)%float) as [Hd Hl]. split.
  - cbn [descends]. split; [done|exact Hd].
  - rewrite Hl. by rewrite default_last_cons.
Qed.

Lemma line_texts_lines x y lines :
  map (fun t => (text_s t, text_fontsize t, text_ha t)) (fst (line_texts x y lines))
  = map (fun l => (l, 10, HLeft)) lines.
Proof.
  revert y. induction lines as [|l lines IH]; intros y; [done|].
  cbn [line_texts fst map text_s text_fontsize text_ha]. by rewrite IH.
Qed.

(** What a text block holds: the title at the cursor, the lines below it in
    steps of 0.04, all at the cursor's x, and the next cursor 0.06 below
    the last text. *)
Lemma text_block_shape x y title lines :
  map (fun t => (text_s t, text_fontsize t, text_ha t))
      (fst (text_block (x, y) title lines))
  = (title, 14, HLeft) :: map (fun l => (l, 10, HLeft)) lines
  /\ Forall (fun t => text_x t = x) (fst (text_block (x, y) title lines))
  /\ head (map text_y (fst (text_block (x, y) title lines))) = Some y
  /\ descends (map text_y (fst (text_block (x, y) title lines)))
  /\ snd (text_block (x, y) title lines)
     = (x, (default y (last (map text_y (fst (text_block (x, y) title lines))))
            - 0.06)%float).
Proof.
  unfold text_block. cbn [fst snd map text_s text_fontsize text_ha text_y].
  destruct (line_texts_heights x y lines) as [Hd Hl].
  split; [by rewrite line_texts_lines|].
  split; [constructor; [done|apply line_texts_x]|].
  split; [done|]. split; [exact Hd|].
  rewrite Hl. by rewrite default_last_cons.
Qed.

Lemma raises_with_lift {A B} (k : A -> M B) e :
  raises_with (lift (Raise e) ≫= k) e (fun fig => fig).
Proof. intros st fs fig E. rewrite <- E. by rewrite set_figs_figs. Qed.

Lemma raises_with_bind {A B} (m : M A) (k : A -> M B) a f g e :
  draws m a f -> raises_with (k a) e g ->
  raises_with (m ≫= k) e (fun fig => g (f fig)).
Proof.
  intros Hm Hk st fs fig E. unfold mbind, M_bind. rewrite (Hm st fs fig E).
  by rewrite (Hk (set_figs (fs ++ [f fig]) st) fs (f fig) eq_refl).
Qed.

End TextBlocks.

(** X5: with a figure active, [write_counter] adds to that figure the
    title (size 14) and, per key in the table's order, one line
    ["(<count>) <token>"] (size 10), all at [x], the title at [y] and every
    line 0.04 below the text before it; it returns [x] and the height 0.06
    below the last text, and changes nothing else. *)
Theorem write_counter_block dpi x y title (c : Counter) st fs fig :
  figs st = fs ++ [fig] ->
  exists ts y',
    write_counter dpi x y title c st
    = (Ok (x, y'), set_figs (fs ++ [add_texts ts fig]) st)
    /\ map (fun t => (text_s t, text_fontsize t, text_ha t)) ts
       = (title, 14, HLeft)
         :: map (fun text =>
                   (str "(" ++ str_of_int (counter_get c text) ++ str ") " ++ text,
                    10, HLeft))
                (counter_keys c)
    /\ Forall (fun t => text_x t = x) ts
    /\ head (map text_y ts) = Some y
    /\ descends (map text_y ts)
    /\ y' = (default y (last (map text_y ts)) - 0.06)%float.
Proof.
  intros E.
  destruct (text_block_shape x y title (counter_lines c)) as (H1 & H2 & H3 & H4 & H5).
  exists (fst (text_block (x, y) title (counter_lines c))),
         (snd (snd (text_block (x, y) title (counter_lines c)))).
  split.
  - rewrite (draws_write_counter dpi x y title c st fs fig E).
    by rewrite H5.
  - split; [|split; [done|split; [done|split; [done|by rewrite H5]]]].
    rewrite H1. unfold counter_lines. by rewrite map_map.
Qed.

Lemma write_counter_block_witness :
  let st := snd (plt_figure Sample.dpi initial_state) in
  let c := notes Sample.aggregates_1 in
  figs st = [] ++ [new_figure Sample.dpi 1]
  /\ exists ts y',
       write_counter Sample.dpi 0.72 0.85 (str "Smaknoter") c st
       = (Ok (0.72%float, y'), set_figs ([] ++ [add_texts ts (new_figure Sample.dpi 1)]) st)
       /\ map (fun t => (text_s t, text_fontsize t, text_ha t)) ts
          = (str "Smaknoter", 14, HLeft)
            :: map (fun text =>
                      (str "(" ++ str_of_int (counter_get c text) ++ str ") " ++ text,
                       10, HLeft))
                   (counter_keys c)
       /\ Forall (fun t => text_x t = 0.72%float) ts
       /\ head (map text_y ts) = Some 0.85%float
       /\ descends (map text_y ts)
       /\ y' = (default 0.85 (last (map text_y ts)) - 0.06)%float.
Proof.
  cbv zeta.
  assert (figs (snd (plt_figure Sample.dpi initial_state))
          = [] ++ [new_figure Sample.dpi 1]) as H by reflexivity.
  exact (conj H (write_counter_block Sample.dpi 0.72 0.85 (str "Smaknoter")
                   (notes Sample.aggregates_1) _ [] _ H)).
Defined.

Lemma draws_write_iterable dpi x y title (o : pyobj) items :
  py_iter o = Ok items ->
  draws (write_list dpi x y title o)
        (snd (text_block (x, y) title items))
        (add_texts (fst (text_block (x, y) title items))).
Proof.
  intros Hiter. unfold write_list, text_block. rewrite Hiter. cbn [fst snd].
  eapply draws_ext.
  - eapply draws_bind; [apply draws_on_gcf|].
    eapply (draws_bind (lift (Ok items))); [apply (draws_ret items)|].
    eapply draws_bind; [|apply draws_ret].
    pose proof (draws_lines dpi (fun text => text) x items y) as H.
    rewrite map_id in H. exact H.
  - intros fig. cbn beta. by rewrite add_texts_cons.
Qed.

(** X6: with a figure active, [write_list] adds the title and the items of
    its argument as they are (the items of a list, the characters of a
    string), one line each, laid out as [write_counter] lays out its lines;
    on a value that cannot be iterated (a number, NaN, a boolean, None) it
    raises [TypeError] with the title already written to the figure. *)
Theorem write_list_block dpi x y title (o : pyobj) st fs fig :
  figs st = fs ++ [fig] ->
  match py_iter o with
  | Ok items =>
      exists ts y',
        write_list dpi x y title o st
        = (Ok (x, y'), set_figs (fs ++ [add_texts ts fig]) st)
        /\ map (fun t => (text_s t, text_fontsize t, text_ha t)) ts
           = (title, 14, HLeft) :: map (fun text => (text, 10, HLeft)) items
        /\ Forall (fun t => text_x t = x) ts
        /\ head (map text_y ts) = Some y
        /\ descends (map text_y ts)
        /\ y' = (default y (last (map text_y ts)) - 0.06)%float
  | Raise e =>
      write_list dpi x y title o st
      = (Raise e,
         set_figs (fs ++ [add_text {| text_x := x; text_y := y; text_s := title;
                                      text_fontsize := 14; text_ha := HLeft |} fig]) st)
  end.
Proof.
  intros E. destruct (py_iter o) as [items|e] eqn:Hiter.
  - destruct (text_block_shape x y title items) as (H1 & H2 & H3 & H4 & H5).
    exists (fst (text_block (x, y) title items)), (snd (snd (text_block (x, y) title items))).
    split.
    + rewrite (draws_write_iterable dpi x y title o items Hiter st fs fig E).
      by rewrite H5.
    + split; [done|split; [done|split; [done|split; [done|by rewrite H5]]]].
  - unfold write_list. rewrite Hiter.
    exact (raises_with_bind _ _ _ _ _ _ (draws_on_gcf dpi _)
             (raises_with_lift (A := list (list N))
                (fun _ => mret (x, y)) e) st fs fig E).
Qed.

Lemma write_list_block_witness :
  let st := snd (plt_figure Sample.dpi initial_state) in
  figs st = [] ++ [new_figure Sample.dpi 1]
  /\ write_list Sample.dpi 0.72 0.85 (column_name COvrigt) (Cell (VInt 0)) st
     = (Raise TypeError,
        set_figs ([] ++ [add_text {| text_x := 0.72; text_y := 0.85;
                                     text_s := column_name COvrigt;
                                     text_fontsize := 14; text_ha := HLeft |}
                                  (new_figure Sample.dpi 1)]) st)
  /\ exists ts y',
       write_list Sample.dpi 0.72 0.85 (column_name COvrigt)
         (PyList [str "fin"; str "fin"]) st
       = (Ok (0.72%float, y'),
          set_figs ([] ++ [add_texts ts (new_figure Sample.dpi 1)]) st)
       /\ map (fun t => (text_s t, text_fontsize t, text_ha t)) ts
          = (column_name COvrigt, 14, HLeft)
            :: map (fun text => (text, 10, HLeft)) [str "fin"; str "fin"]
       /\ Forall (fun t => text_x t = 0.72%float) ts
       /\ head (map text_y ts) = Some 0.85%float
       /\ descends (map text_y ts)
       /\ y' = (default 0.85 (last (map text_y ts)) - 0.06)%float.
Proof.
  cbv zeta.
  assert (figs (snd (plt_figure Sample.dpi initial_state))
          = [] ++ [new_figure Sample.dpi 1]) as H by reflexivity.
  exact (conj H
    (conj (write_list_block Sample.dpi 0.72 0.85 (column_name COvrigt)
             (Cell (VInt 0)) _ [] _ H)
          (write_list_block Sample.dpi 0.72 0.85 (column_name COvrigt)
             (PyList [str "fin"; str "fin"]) _ [] _ H))).
Defined.

(** ** What [plot_mead_info] draws besides the panel *)

Section MeadInfo.

Variable dpi : float.

Lemma figure_then_raises_with {A} (op : M A) e f st :
  raises_with op e f ->
  (plt_figure dpi ≫= fun _ => op) st
  = (Raise e, set_figs (figs st ++ [f (new_figure dpi (next_num (figs st)))]) st).
Proof.
  intros H. unfold mbind, M_bind, plt_figure.
  by rewrite (H (set_figs (figs st ++ [new_figure dpi (next_num (figs st))]) st)
                (figs st) (new_figure dpi (next_num (figs st))) eq_refl).
Qed.

Lemma compose_unresolved_figure agg id (m : IdNameMapper) st :
  _id_name_map m !! id = None ->
  compose dpi agg id m st
  = (Raise (KeyError id),
     set_figs (figs st ++
       [{| fig_number := next_num (figs st); fig_dpi := dpi; fig_texts := [];
           fig_suptitle := None; fig_subplotpars := None;
           fig_axes := Some {| ax_plots := [point_plot (filtered_df agg)];
                               ax_ylim := Some (1, 9); ax_title := None |};
           fig_size_inches := None |}]) st).
Proof.
  intros Hm. unfold compose. rewrite (getitem_None m id Hm).
  erewrite figure_then_raises_with;
    [|eapply raises_with_bind; [apply draws_on_gcf|];
      eapply raises_with_bind; [apply draws_on_gcf|];
      apply (raises_with_lift (A := list N))].
  reflexivity.
Qed.

End MeadInfo.

(** X7: for an identifier that has rows but no entry in the name table,
    [plot_mead_info] raises [KeyError] for that identifier after it has made
    its figure: the registry is left one figure longer, the new figure
    holding the point plot and the y-range but no title and no text. *)
Theorem plot_mead_info_unresolved_figure dpi (df : DataFrame) id (m : IdNameMapper) st :
  query_Id df id <> [] ->
  _id_name_map m !! id = None ->
  plot_mead_info dpi df id m st
  = (Raise (KeyError id),
     set_figs (figs st ++
       [{| fig_number := next_num (figs st); fig_dpi := dpi; fig_texts := [];
           fig_suptitle := None; fig_subplotpars := None;
           fig_axes :=
             Some {| ax_plots :=
                       [point_plot (df_filter [CSotma; CSyrlighet; CFyllighet]
                                      (query_Id df id))];
                     ax_ylim := Some (1, 9); ax_title := None |};
           fig_size_inches := None |}]) st).
Proof.
  intros Hrows Hm.
  destruct (aggregate_rows df id Hrows) as (agg & Hagg & Hf & _).
  unfold plot_mead_info. rewrite Hagg.
  change (lift (Ok agg) ≫= ?k) with (k agg). cbn beta.
  rewrite (compose_unresolved_figure dpi agg id m st Hm). by rewrite Hf.
Qed.

Lemma plot_mead_info_unresolved_figure_witness :
  let m := {| _id_name_map := to_dict [(2, str "Beta")] |} in
  query_Id Sample.mead2024_csv 1 <> []
  /\ _id_name_map m !! 1 = None
  /\ plot_mead_info Sample.dpi Sample.mead2024_csv 1 m initial_state
     = (Raise (KeyError 1),
        set_figs (figs initial_state ++
          [{| fig_number := next_num (figs initial_state); fig_dpi := Sample.dpi;
              fig_texts := []; fig_suptitle := None; fig_subplotpars := None;
              fig_axes :=
                Some {| ax_plots :=
                          [point_plot (df_filter [CSotma; CSyrlighet; CFyllighet]
                                         (query_Id Sample.mead2024_csv 1))];
                        ax_ylim := Some (1, 9); ax_title := None |};
              fig_size_inches := None |}]) initial_state).
Proof.
  cbv zeta.
  assert (query_Id Sample.mead2024_csv 1 <> []) as H1 by (vm_compute; discriminate).
  assert (_id_name_map {| _id_name_map := to_dict [(2, str "Beta")] |} !! 1 = None) as H2
    by (vm_compute; reflexivity).
  exact (conj H1 (conj H2
    (plot_mead_info_unresolved_figure Sample.dpi Sample.mead2024_csv 1 _
       initial_state H1 H2))).
Defined.

(** X8: for an identifier with rows and a name, [plot_mead_info] appends
    exactly one figure and changes nothing else: it is numbered one above the
    largest number in the registry, titled ["(<id>) <name>"] (size 16, at
    height 0.95), and holds one point plot (standard-deviation error bars,
    no connecting line, round markers) of the three columns Sötma, Syrlighet
    and Fyllighet, each with the cells of the matching rows in row order, on
    a y-axis from 1 to 9. *)
Theorem plot_mead_info_plot dpi (df : DataFrame) id (m : IdNameMapper) name st :
  query_Id df id <> [] ->
  _id_name_map m !! id = Some name ->
  exists fig,
    plot_mead_info dpi df id m st = (Ok (), set_figs (figs st ++ [fig]) st)
    /\ fig_number fig = next_num (figs st)
    /\ Forall (fun old => fig_number old < fig_number fig) (figs st)
    /\ fig_suptitle fig
       = Some {| sup_s := str "(" ++ str_of_int id ++ str ") " ++ name;
                 sup_fontsize := 16; sup_y := 0.95 |}
    /\ fig_axes fig
       = Some {| ax_plots :=
                   [{| pp_data :=
                         [(LStr (column_name CSotma), map Sotma (query_Id df id));
                          (LStr (column_name CSyrlighet), map Syrlighet (query_Id df id));
                          (LStr (column_name CFyllighet), map Fyllighet (query_Id df id))];
                       pp_errorbar := str "sd"; pp_linestyles := str " ";
                       pp_markers := str "o" |}];
                 ax_ylim := Some (1, 9); ax_title := None |}
    /\ fig_size_inches fig = None.
Proof.
  intros Hrows Hm.
  destruct (aggregate_rows df id Hrows) as (agg & Hagg & Hf & _).
  destruct (plot_mead_info_figure dpi df id m name st Hrows Hm)
    as (agg' & o & Hagg' & _ & Hplot).
  rewrite Hagg in Hagg'. injection Hagg' as <-.
  eexists. split; [exact Hplot|].
  cbn [fig_number fig_suptitle fig_axes fig_size_inches mead_info_figure].
  split; [done|]. split; [apply next_num_above|].
  split; [by rewrite <- !app_assoc|]. split; [|done].
  by rewrite Hf.
Qed.

Lemma plot_mead_info_plot_witness :
  query_Id Sample.mead2024_csv 1 <> []
  /\ _id_name_map Sample.resolver !! 1 = Some (str "Alpha")
  /\ exists fig,
       plot_mead_info Sample.dpi Sample.mead2024_csv 1 Sample.resolver initial_state
       = (Ok (), set_figs (figs initial_state ++ [fig]) initial_state)
       /\ fig_number fig = next_num (figs initial_state)
       /\ Forall (fun old => fig_number old < fig_number fig) (figs initial_state)
       /\ fig_suptitle fig
          = Some {| sup_s := str "(" ++ str_of_int 1 ++ str ") " ++ str "Alpha";
                    sup_fontsize := 16; sup_y := 0.95 |}
       /\ fig_axes fig
          = Some {| ax_plots :=
                      [{| pp_data :=
                            [(LStr (column_name CSotma),
                              map Sotma (query_Id Sample.mead2024_csv 1));
                             (LStr (column_name CSyrlighet),
                              map Syrlighet (query_Id Sample.mead2024_csv 1));
                             (LStr (column_name CFyllighet),
                              map Fyllighet (query_Id Sample.mead2024_csv 1))];
                          pp_errorbar := str "sd"; pp_linestyles := str " ";
                          pp_markers := str "o" |}];
                    ax_ylim := Some (1, 9); ax_title := None |}
       /\ fig_size_inches fig = None.
Proof.
  assert (query_Id Sample.mead2024_csv 1 <> []) as H1 by (vm_compute; discriminate).
  assert (_id_name_map Sample.resolver !! 1 = Some (str "Alpha")) as H2
    by (vm_compute; reflexivity).
  exact (conj H1 (conj H2
    (plot_mead_info_plot Sample.dpi Sample.mead2024_csv 1 Sample.resolver
       (str "Alpha") initial_state H1 H2))).
Defined.

(** ** Category plots *)

Section CategoryPlots.

Variable dpi : float.

Lemma rename_columns_labels (m : IdNameMapper) (cells : Z -> list value) (ks : list Z) :
  rename_columns m (map (fun k => (LInt k, cells k)) ks)
  = Ok (map (fun k => (category_label (_id_name_map m) k, cells k)) ks).
Proof.
  unfold rename_columns. induction ks as [|k ks IH]; [done|].
  cbn [map mapM]. rewrite IH.
  unfold IdNameMapper_contains, category_label.
  destruct (_id_name_map m !! k) as [name|] eqn:Hk.
  - by rewrite (getitem_Some m k name Hk).
  - by rewrite (getitem_None m k Hk).
Qed.

(** The groups of a category plot come in ascending order of identifier,
    one per distinct identifier. *)
Lemma group_keys_sorted (df : DataFrame) :
  StronglySorted Z.lt (group_keys df)
  /\ (forall k, k ∈ group_keys df <-> k ∈ map Id df).
Proof.
  split.
  - unfold group_keys.
    assert (NoDup (merge_sort Z.le (remove_dups (map Id df)))) as Hnd.
    { rewrite merge_sort_Permutation. apply NoDup_remove_dups. }
    assert (StronglySorted Z.le (merge_sort Z.le (remove_dups (map Id df)))) as Hs.
    { apply Sorted_StronglySorted; [apply _|]. apply Sorted_merge_sort. apply _. }
    induction Hs as [|x l Hl IH Hx]; [constructor|].
    apply NoDup_cons in Hnd as [Hx' Hnd]. constructor; [by apply IH|].
    rewrite Forall_forall in Hx |- *. intros y Hy.
    specialize (Hx y Hy). assert (x <> y) by (by intros ->). lia.
  - intros k. split; [apply group_keys_ids|].
    unfold group_keys. rewrite merge_sort_Permutation. by rewrite elem_of_remove_dups.
Qed.

(** The frame of a category plot can be built only on a balanced table. *)
Lemma frame_balanced (df : DataFrame) category d :
  DataFrame_of_dict (groupby_Id category df) = Ok d ->
  balanced df
  /\ d = map (fun k => (LInt k, map (cell category) (query_Id df k))) (group_keys df).
Proof.
  unfold DataFrame_of_dict.
  destruct (groupby_Id category df) as [|[k0 l0] g] eqn:E.
  - intros [= <-]. unfold groupby_Id in E.
    destruct (group_keys df) as [|k ks] eqn:Ek; [|done].
    split; [|done].
    destruct df as [|r df]; [constructor|].
    assert (Id r ∈ group_keys (r :: df)) as Hin.
    { apply group_keys_sorted. cbn [map]. apply elem_of_cons. by left. }
    rewrite Ek in Hin. by apply elem_of_nil in Hin.
  - destruct (forallb _ _) eqn:Hall; [|done]. intros Hd.
    assert (d = map (fun kv : Z * list value => (LInt (fst kv), snd kv))
                    (groupby_Id category df)) as ->
      by (rewrite E; by injection Hd).
    split.
    + assert (forall r, r ∈ df -> length (query_Id df (Id r)) = length l0) as Hlen.
      { intros r Hr.
        assert ((Id r, map (cell category) (query_Id df (Id r)))
                  ∈ groupby_Id category df) as Hin.
        { unfold groupby_Id.
          apply (list_elem_of_fmap_2
                   (fun k => (k, map (cell category) (query_Id df k)))).
          apply group_keys_sorted. by apply list_elem_of_fmap_2. }
        rewrite E in Hin. rewrite forallb_forall in Hall.
        apply list_elem_of_In, Hall in Hin. cbn [snd] in Hin.
        apply Nat.eqb_eq in Hin. by rewrite length_map in Hin. }
      unfold balanced. apply Forall_forall. intros r Hr.
      apply Forall_forall. intros r' Hr'. by rewrite !Hlen.
    + unfold groupby_Id. by rewrite map_map.
Qed.

Lemma frame_unbalanced (df : DataFrame) category :
  ~ balanced df -> DataFrame_of_dict (groupby_Id category df) = Raise ValueError.
Proof.
  intros Hnb. destruct (DataFrame_of_dict (groupby_Id category df)) as [d|e] eqn:E.
  - by apply frame_balanced in E as [? _].
  - unfold DataFrame_of_dict in E.
    destruct (groupby_Id category df) as [|[k0 l0] g]; [done|].
    destruct (forallb _ _); [done|]. by injection E as <-.
Qed.

Lemma plot_category_columns_figure (df : DataFrame) category (m : IdNameMapper) st :
  balanced df ->
  plot_category dpi df category m st
  = (Ok (),
     set_figs (figs st ++
       [category_figure dpi (next_num (figs st))
          (map (fun k => (category_label (_id_name_map m) k,
                          map (cell category) (query_Id df k)))
               (group_keys df))
          category]) st).
Proof.
  intros Hb. destruct (balanced_frame df category Hb) as [d Hd].
  destruct (frame_balanced df category d Hd) as [_ ->].
  unfold plot_category. rewrite Hd. cbn [mbind result_bind].
  rewrite (rename_columns_labels m
             (fun k => map (cell category) (query_Id df k)) (group_keys df)).
  change (lift (Ok ?f) ≫= ?k) with (k f). cbn beta.
  erewrite figure_then_draws;
    [|eapply draws_bind; [apply draws_on_gcf|];
      eapply draws_bind; [apply draws_on_gcf|]; apply draws_on_gcf].
  do 4 f_equal; by apply figure_eq.
Qed.

End CategoryPlots.

(** X9: on a table whose identifiers have equally many rows,
    [plot_category] appends exactly one figure and changes nothing else: a
    point plot titled with the category, on a y-axis from 1 to 9, with one
    column per distinct identifier in ascending order of identifier, each
    holding the category's cells of that identifier's rows in row order and
    labelled ["(<id>) <name>"] when the name table has the identifier and
    with the bare identifier otherwise (no error is raised for a missing
    name). *)
Theorem plot_category_columns dpi (df : DataFrame) category (m : IdNameMapper) st :
  balanced df ->
  plot_category dpi df category m st
  = (Ok (),
     set_figs (figs st ++
       [{| fig_number := next_num (figs st); fig_dpi := dpi; fig_texts := [];
           fig_suptitle := None; fig_subplotpars := None;
           fig_axes :=
             Some {| ax_plots :=
                       [{| pp_data :=
                             map (fun k => (category_label (_id_name_map m) k,
                                            map (cell category) (query_Id df k)))
                                 (group_keys df);
                           pp_errorbar := str "sd"; pp_linestyles := str " ";
                           pp_markers := str "o" |}];
                     ax_ylim := Some (1, 9);
                     ax_title := Some (column_name category) |};
           fig_size_inches := None |}]) st)
  /\ StronglySorted Z.lt (group_keys df)
  /\ (forall k, k ∈ group_keys df <-> k ∈ map Id df).
Proof.
  intros Hb. split; [|apply group_keys_sorted].
  by rewrite (plot_category_columns_figure dpi df category m st Hb).
Qed.

Lemma plot_category_columns_witness :
  let m := {| _id_name_map := to_dict [(2, str "Beta")] |} in
  balanced Sample.mead2024_csv
  /\ plot_category Sample.dpi Sample.mead2024_csv CHelhetsbetyg m initial_state
     = (Ok (),
        set_figs (figs initial_state ++
          [{| fig_number := next_num (figs initial_state); fig_dpi := Sample.dpi;
              fig_texts := []; fig_suptitle := None; fig_subplotpars := None;
              fig_axes :=
                Some {| ax_plots :=
                          [{| pp_data :=
                                map (fun k => (category_label (_id_name_map m) k,
                                               map (cell CHelhetsbetyg)
                                                   (query_Id Sample.mead2024_csv k)))
                                    (group_keys Sample.mead2024_csv);
                              pp_errorbar := str "sd"; pp_linestyles := str " ";
                              pp_markers := str "o" |}];
                        ax_ylim := Some (1, 9);
                        ax_title := Some (column_name CHelhetsbetyg) |};
              fig_size_inches := None |}]) initial_state)
  /\ StronglySorted Z.lt (group_keys Sample.mead2024_csv)
  /\ (forall k, k ∈ group_keys Sample.mead2024_csv <-> k ∈ map Id Sample.mead2024_csv).
Proof.
  cbv zeta.
  assert (balanced Sample.mead2024_csv) as H
    by (apply (bool_decide_unpack _); vm_compute; exact I).
  exact (conj H (plot_category_columns Sample.dpi Sample.mead2024_csv CHelhetsbetyg
                   {| _id_name_map := to_dict [(2, str "Beta")] |} initial_state H)).
Defined.

(** X10: on a table where two identifiers have different numbers of rows,
    [plot_category] raises [ValueError] (the columns of the frame differ in
    length) before it makes a figure: the state is left as it was. *)
Theorem plot_category_unbalanced dpi (df : DataFrame) category (m : IdNameMapper) st :
  ~ balanced df ->
  plot_category dpi df category m st = (Raise ValueError, st).
Proof.
  intros Hnb. apply plot_category_raises. by apply frame_unbalanced.
Qed.

Lemma plot_category_unbalanced_witness :
  ~ balanced Sample.unbalanced_csv
  /\ plot_category Sample.dpi Sample.unbalanced_csv CSotma Sample.resolver initial_state
     = (Raise ValueError, initial_state).
Proof.
  assert (~ balanced Sample.unbalanced_csv) as H
    by (apply (bool_decide_unpack _); vm_compute; exact I).
  exact (conj H (plot_category_unbalanced Sample.dpi Sample.unbalanced_csv CSotma
                   Sample.resolver initial_state H)).
Defined.

(** ** The documents of a run *)

Section Run.

Variable dpi : float.
Variable set_iter : list Z -> list Z.

Lemma page_page fig : page (page fig) = page fig.
Proof. by destruct fig. Qed.

Lemma map_page_page (l : list Figure) : map page (map page l) = map page l.
Proof. rewrite map_map. apply map_ext. intros; apply page_page. Qed.

Lemma process_instance_saved inst st st' :
  registry_saved st ->
  process_instance dpi set_iter inst st = (Ok (), st') ->
  exists created,
    length created
    = (1 + length (set_iter (merge_sort Z.le (map Id (mead_data_csv inst)))) + 4)%nat
    /\ st' = {| figs := figs st ++ map page created;
                style := Some (str "Solarize_Light2");
                files := files st ++
                  [(instance_folder inst ++ str ".pdf", figs st ++ map page created)] |}
    /\ registry_saved st'.
Proof.
  intros [Hs Hp] Hrun.
  destruct (process_instance_document dpi set_iter inst st st' Hs Hrun)
    as (created & _ & Hn & ->).
  exists created. rewrite map_app, Hp.
  split; [by apply numbered_length in Hn|]. split; [done|].
  split; cbn [figs].
  - rewrite map_app, map_page_numbers, <- map_app. by eapply sorted_extend.
  - by rewrite map_app, Hp, map_page_page.
Qed.

(** A run that completes, from a registry as [main] keeps it. *)
Lemma main_saved instances st st' :
  registry_saved st ->
  main dpi set_iter instances st = (Ok (), st') ->
  exists docs,
    files st' = files st ++ docs
    /\ map fst docs = map (fun inst => instance_folder inst ++ str ".pdf") instances
    /\ map (fun d => length (snd d)) docs
       = page_counts set_iter (length (figs st)) instances
    /\ grows (figs st) docs
    /\ figs st' = default (figs st) (snd <$> last docs).
Proof.
  revert st. induction instances as [|inst rest IH]; intros st Hinv Hrun.
  - injection Hrun as <-. exists []. by rewrite app_nil_r.
  - unfold main in Hrun. rewrite for_each_cons in Hrun.
    destruct (process_instance dpi set_iter inst st) as [[[]|e] st1] eqn:Hinst; [|done].
    destruct (process_instance_saved inst st st1 Hinv Hinst) as (created & Hlen & -> & Hinv1).
    destruct (IH _ Hinv1 Hrun) as (docs & Hfiles & Hnames & Hcounts & Hgrows & Hfigs).
    cbn [figs files] in *.
    exists ((instance_folder inst ++ str ".pdf", figs st ++ map page created) :: docs).
    split; [by rewrite Hfiles, <- app_assoc|].
    split; [cbn [map fst]; by rewrite Hnames|].
    split.
    { cbn [map snd page_counts]. rewrite Hcounts.
      by rewrite !length_app, !length_map, Hlen. }
    split; [split; [by apply prefix_app_r|exact Hgrows]|].
    rewrite Hfigs, <- !fmap_last, fmap_cons. cbn [snd].
    by rewrite default_last_cons.
Qed.

Lemma registry_saved_empty st : figs st = [] -> registry_saved st.
Proof. intros E. unfold registry_saved. rewrite E. split; [constructor|done]. Qed.

End Run.

(** X11: on a registry in creation order (figure numbers ascending, as
    [plt.figure()] leaves it) the "Save pdf" block of [main] writes one
    document with one page per figure of the registry, in that order, every
    page sized 1920 by 1080 pixels at the figure's resolution and otherwise
    the figure as drawn; it closes no figure (the registry holds the same
    figures afterwards, resized) and keeps the documents written before. *)
Theorem save_pdf_document dpi name st :
  StronglySorted Z.lt (map fig_number (figs st)) ->
  exists pages,
    save_pdf dpi name st
    = (Ok (), {| figs := pages; style := style st; files := files st ++ [(name, pages)] |})
    /\ length pages = length (figs st)
    /\ Forall2 (fun p fig =>
                  p = set_size_inches (1920 / fig_dpi fig)%float
                                      (1080 / fig_dpi fig)%float fig)
               pages (figs st).
Proof.
  intros Hs. exists (map page (figs st)).
  split; [by apply save_pdf_pages|]. split; [by rewrite length_map|].
  apply Forall2_fmap_l, Forall_Forall2_diag, Forall_forall. by intros fig _.
Qed.

Lemma save_pdf_document_witness :
  let st := snd (plot_instance Sample.dpi CPythonSet.set_iter Sample.mead2024
                   initial_state) in
  StronglySorted Z.lt (map fig_number (figs st))
  /\ exists pages,
       save_pdf Sample.dpi (str "mead2024.pdf") st
       = (Ok (), {| figs := pages; style := style st;
                    files := files st ++ [(str "mead2024.pdf", pages)] |})
       /\ length pages = length (figs st)
       /\ Forall2 (fun p fig =>
                     p = set_size_inches (1920 / fig_dpi fig)%float
                                         (1080 / fig_dpi fig)%float fig)
                  pages (figs st).
Proof.
  cbv zeta.
  assert (StronglySorted Z.lt
            (map fig_number
               (figs (snd (plot_instance Sample.dpi CPythonSet.set_iter Sample.mead2024
                             initial_state))))) as H
    by (vm_compute; repeat constructor).
  exact (conj H (save_pdf_document Sample.dpi (str "mead2024.pdf") _ H)).
Defined.

(** X12: in a run that completes from an empty registry, [main] writes one
    document per instance folder, named after the folder, in the order of
    the folders; no figure is ever closed, so every document begins with all
    the pages of the document before it, and the n-th document has as many
    pages as the first n instances created figures (for each: a title page,
    one page per round of the identifier loop, four category pages). *)
Theorem main_documents dpi set_iter instances st st' :
  figs st = [] ->
  main dpi set_iter instances st = (Ok (), st') ->
  exists docs,
    files st' = files st ++ docs
    /\ map fst docs = map (fun inst => instance_folder inst ++ str ".pdf") instances
    /\ map (fun d => length (snd d)) docs = page_counts set_iter 0 instances
    /\ grows [] docs
    /\ figs st' = default [] (snd <$> last docs).
Proof.
  intros Hempty Hrun.
  destruct (main_saved dpi set_iter instances st st' (registry_saved_empty st Hempty) Hrun)
    as (docs & H1 & H2 & H3 & H4 & H5).
  rewrite Hempty in *. by exists docs.
Qed.

Lemma main_documents_witness :
  let st' := snd (main Sample.dpi CPythonSet.set_iter [Sample.mead2025; Sample.mead2024]
                    initial_state) in
  figs initial_state = []
  /\ main Sample.dpi CPythonSet.set_iter [Sample.mead2025; Sample.mead2024] initial_state
     = (Ok (), st')
  /\ exists docs,
       files st' = files initial_state ++ docs
       /\ map fst docs
          = map (fun inst => instance_folder inst ++ str ".pdf")
                [Sample.mead2025; Sample.mead2024]
       /\ map (fun d => length (snd d)) docs
          = page_counts CPythonSet.set_iter 0 [Sample.mead2025; Sample.mead2024]
       /\ grows [] docs
       /\ figs st' = default [] (snd <$> last docs).
Proof.
  cbv zeta.
  assert (main Sample.dpi CPythonSet.set_iter [Sample.mead2025; Sample.mead2024]
            initial_state
          = (Ok (), snd (main Sample.dpi CPythonSet.set_iter
                           [Sample.mead2025; Sample.mead2024] initial_state))) as H
    by (vm_compute; reflexivity).
  exact (conj eq_refl (conj H
    (main_documents Sample.dpi CPythonSet.set_iter [Sample.mead2025; Sample.mead2024]
       initial_state _ eq_refl H))).
Defined.

(** ** A run that fails *)

Section Failure.

Variable dpi : float.
Variable set_iter : list Z -> list Z.

Lemma keeps_ret {A} (a : A) : keeps_files (mret a).
Proof. by intros st r st' [= _ <-]. Qed.

Lemma keeps_lift {A} (r : result A) : keeps_files (lift r).
Proof. by intros st r' st' [= _ <-]. Qed.

Lemma keeps_bind {A B} (m : M A) (k : A -> M B) :
  keeps_files m -> (forall a, keeps_files (k a)) -> keeps_files (m ≫= k).
Proof.
  intros Hm Hk st r st'. unfold mbind, M_bind.
  destruct (m st) as [[a|e] st1] eqn:E.
  - intros H. rewrite (Hk a st1 r st' H). exact (Hm st _ st1 E).
  - intros [= _ <-]. exact (Hm st _ st1 E).
Qed.

Lemma keeps_for_fold {A B} (l : list A) (body : B -> A -> M B) b :
  (forall b a, keeps_files (body b a)) -> keeps_files (for_fold l body b).
Proof.
  intros Hbody. revert b. induction l as [|a l IH]; intros b.
  - apply keeps_ret.
  - cbn [for_fold]. apply keeps_bind; [apply Hbody|intros; apply IH].
Qed.

Lemma keeps_on_gcf f : keeps_files (on_gcf dpi f).
Proof.
  intros st r st'. unfold on_gcf. destruct (figs st); by intros [= _ <-].
Qed.

Lemma keeps_plt_figure : keeps_files (plt_figure dpi).
Proof. by intros st r st' [= _ <-]. Qed.

Lemma keeps_plt_style_use s : keeps_files (plt_style_use s).
Proof. by intros st r st' [= _ <-]. Qed.

Ltac keeps_step :=
  lazymatch goal with
  | |- keeps_files (if ?b then _ else _) => destruct b
  | |- keeps_files (for_fold _ _ _) => apply keeps_for_fold; intros
  | |- keeps_files (for_each _ _) => apply keeps_for_fold; intros
  | |- keeps_files (plt_figure _) => apply keeps_plt_figure
  | |- keeps_files (plt_style_use _) => apply keeps_plt_style_use
  | |- keeps_files (lift _) => apply keeps_lift
  | |- keeps_files (mret _) => apply keeps_ret
  | |- keeps_files (_ ≫= _) => apply keeps_bind; [|intros]
  | |- _ => apply keeps_on_gcf
  end.

Lemma keeps_write_counter x y title c : keeps_files (write_counter dpi x y title c).
Proof. unfold write_counter. repeat keeps_step. Qed.

Lemma keeps_write_list x y title o : keeps_files (write_list dpi x y title o).
Proof. unfold write_list. repeat keeps_step. Qed.

Lemma keeps_plot_mead_info (df : DataFrame) id (m : IdNameMapper) :
  keeps_files (plot_mead_info dpi df id m).
Proof.
  unfold plot_mead_info, compose.
  repeat first [apply keeps_write_counter | apply keeps_write_list | keeps_step].
Qed.

Lemma keeps_plot_category (df : DataFrame) category (m : IdNameMapper) :
  keeps_files (plot_category dpi df category m).
Proof. unfold plot_category. repeat keeps_step. Qed.

(** The plotting phase writes no document, even when it fails. *)
Lemma keeps_plot_instance inst : keeps_files (plot_instance dpi set_iter inst).
Proof.
  unfold plot_instance. cbv zeta.
  repeat first [apply keeps_plot_mead_info | apply keeps_plot_category | keeps_step].
Qed.

Lemma main_cons inst rest st :
  main dpi set_iter (inst :: rest) st
  = match process_instance dpi set_iter inst st with
    | (Ok _, st1) => main dpi set_iter rest st1
    | (Raise e, st1) => (Raise e, st1)
    end.
Proof. unfold main. by rewrite for_each_cons. Qed.

Lemma main_app done rest st :
  main dpi set_iter (done ++ rest) st
  = match main dpi set_iter done st with
    | (Ok _, st1) => main dpi set_iter rest st1
    | (Raise e, st1) => (Raise e, st1)
    end.
Proof.
  revert st. induction done as [|inst done IH]; intros st; [done|].
  cbn [app]. rewrite !main_cons.
  destruct (process_instance dpi set_iter inst st) as [[[]|e] st1]; [apply IH|done].
Qed.

End Failure.

(** X13: in a run from an empty registry, when the plotting of an instance
    raises after the instances before it were processed completely, [main]
    ends there with that error: no later instance is processed, the
    documents of the instances before it are those written, and the failing
    instance gets none (its document is opened only after the plotting). *)
Theorem main_stops_when_plotting_raises dpi set_iter done inst rest st st1 e st' :
  figs st = [] ->
  main dpi set_iter done st = (Ok (), st1) ->
  plot_instance dpi set_iter inst st1 = (Raise e, st') ->
  main dpi set_iter (done ++ inst :: rest) st = (Raise e, st')
  /\ files st' = files st1
  /\ map fst (files st')
     = map fst (files st)
       ++ map (fun inst => instance_folder inst ++ str ".pdf") done.
Proof.
  intros Hempty Hdone Hfail.
  pose proof (keeps_plot_instance dpi set_iter inst st1 _ _ Hfail) as Hfiles.
  split; [|split; [done|]].
  - rewrite main_app, Hdone, main_cons.
    unfold process_instance. unfold mbind, M_bind. by rewrite Hfail.
  - destruct (main_saved dpi set_iter done st st1 (registry_saved_empty st Hempty) Hdone)
      as (docs & Hf & Hn & _).
    by rewrite Hfiles, Hf, map_app, Hn.
Qed.

Lemma main_stops_when_plotting_raises_witness :
  let broken :=
    {| instance_folder := str "mead2027"; id_name_map_csv := [(2, str "Beta")];
       mead_data_csv := Sample.mead2024_csv |} in
  let st1 := snd (main Sample.dpi CPythonSet.set_iter [Sample.mead2025] initial_state) in
  let st' := snd (plot_instance Sample.dpi CPythonSet.set_iter broken st1) in
  figs initial_state = []
  /\ main Sample.dpi CPythonSet.set_iter [Sample.mead2025] initial_state = (Ok (), st1)
  /\ plot_instance Sample.dpi CPythonSet.set_iter broken st1 = (Raise (KeyError 1), st')
  /\ main Sample.dpi CPythonSet.set_iter ([Sample.mead2025] ++ broken :: [Sample.mead2024])
       initial_state
     = (Raise (KeyError 1), st')
  /\ files st' = files st1
  /\ map fst (files st')
     = map fst (files initial_state)
       ++ map (fun inst => instance_folder inst ++ str ".pdf") [Sample.mead2025].
Proof.
  cbv zeta.
  set (broken := {| instance_folder := str "mead2027";
                    id_name_map_csv := [(2, str "Beta")];
                    mead_data_csv := Sample.mead2024_csv |}).
  set (st1 := snd (main Sample.dpi CPythonSet.set_iter [Sample.mead2025] initial_state)).
  assert (main Sample.dpi CPythonSet.set_iter [Sample.mead2025] initial_state
          = (Ok (), st1)) as H1 by (vm_compute; reflexivity).
  assert (plot_instance Sample.dpi CPythonSet.set_iter broken st1
          = (Raise (KeyError 1),
             snd (plot_instance Sample.dpi CPythonSet.set_iter broken st1))) as H2
    by (vm_compute; reflexivity).
  exact (conj eq_refl (conj H1 (conj H2
    (main_stops_when_plotting_raises Sample.dpi CPythonSet.set_iter [Sample.mead2025]
       broken [Sample.mead2024] initial_state st1 (KeyError 1) _ eq_refl H1 H2)))).
Defined.

(** ** The pages of a document *)

Section Layout.

Variable dpi : float.
Variable set_iter : list Z -> list Z.

(** A loop whose rounds each make one figure of a known look makes figures
    of these looks, in the order of its rounds. *)
Lemma for_each_observed {A O} (obs : Figure -> O) (g : A -> O)
    (body : A -> M unit) (l : list A) st st' :
  (forall a st,
     (exists fig, body a st = (Ok (), set_figs (figs st ++ [fig]) st) /\ obs fig = g a)
     \/ (exists e st1, body a st = (Raise e, st1))) ->
  for_each l body st = (Ok (), st') ->
  exists created,
    st' = set_figs (figs st ++ created) st /\ map obs created = map g l.
Proof.
  intros Hbody. revert st. induction l as [|a l IH]; intros st Hrun.
  - exists []. injection Hrun as <-. by rewrite app_nil_r, set_figs_figs.
  - rewrite for_each_cons in Hrun.
    destruct (Hbody a st) as [(fig & E & Hobs)|(e & st1 & E)]; rewrite E in Hrun; [|done].
    destruct (IH _ Hrun) as (created & -> & Hmap).
    exists (fig :: created). cbn [figs set_figs map]. split.
    + by rewrite <- app_assoc.
    + by rewrite Hobs, Hmap.
Qed.

Lemma plot_mead_info_observed (df : DataFrame) id (m : IdNameMapper) st :
  (exists fig,
     plot_mead_info dpi df id m st = (Ok (), set_figs (figs st ++ [fig]) st)
     /\ (sup_s <$> fig_suptitle fig, fig_axes fig ≫= ax_title, fig_dpi fig)
        = (Some ((str "(" ++ str_of_int id ++ str ") ")
                 ++ default [] (_id_name_map m !! id)), None, dpi))
  \/ (exists e st1, plot_mead_info dpi df id m st = (Raise e, st1)).
Proof.
  destruct (query_Id df id) as [|r rows] eqn:Hq.
  { right. exists TypeError, st. by apply plot_mead_info_no_rows. }
  assert (query_Id df id <> []) as Hrows by by rewrite Hq.
  destruct (_id_name_map m !! id) as [name|] eqn:Hm.
  - left. destruct (plot_mead_info_figure dpi df id m name st Hrows Hm)
      as (agg & o & _ & _ & ->).
    by eexists.
  - right. destruct (plot_mead_info_unresolved dpi df id m st Hrows Hm) as [st' ->].
    by eexists _, _.
Qed.

Lemma plot_category_observed (df : DataFrame) category (m : IdNameMapper) st :
  (exists fig,
     plot_category dpi df category m st = (Ok (), set_figs (figs st ++ [fig]) st)
     /\ (sup_s <$> fig_suptitle fig, fig_axes fig ≫= ax_title, fig_dpi fig)
        = (None, Some (column_name category), dpi))
  \/ (exists e st1, plot_category dpi df category m st = (Raise e, st1)).
Proof.
  destruct (DataFrame_of_dict (groupby_Id category df)) as [d|e] eqn:Hd.
  - left. destruct (plot_category_figure dpi df category m d st Hd) as [f ->].
    by eexists.
  - right. exists e, st. by apply plot_category_raises.
Qed.

Lemma plot_instance_layout inst st st1 :
  plot_instance dpi set_iter inst st = (Ok (), st1) ->
  exists created,
    st1 = {| figs := figs st ++ title_figure dpi (next_num (figs st)) (instance_folder inst)
                                :: created;
             style := Some (str "Solarize_Light2"); files := files st |}
    /\ map (fun fig => (sup_s <$> fig_suptitle fig, fig_axes fig ≫= ax_title, fig_dpi fig))
           created
       = map (fun id =>
                (Some ((str "(" ++ str_of_int id ++ str ") ")
                       ++ default [] (to_dict (id_name_map_csv inst) !! id)),
                 None, dpi))
             (set_iter (merge_sort Z.le (map Id (mead_data_csv inst))))
         ++ map (fun category => (None, Some (column_name category), dpi))
                [CSotma; CSyrlighet; CFyllighet; CHelhetsbetyg].
Proof.
  rewrite plot_instance_title. intros H.
  apply bind_Ok in H as ([] & st2 & H1 & H2).
  eapply for_each_observed in H1 as (c1 & -> & O1);
    [|intros id st0; apply plot_mead_info_observed].
  eapply for_each_observed in H2 as (c2 & -> & O2);
    [|intros category st0; apply plot_category_observed].
  cbn [figs set_figs style files _id_name_map] in *.
  exists (c1 ++ c2). split.
  - f_equal. by rewrite <- !app_assoc.
  - by rewrite map_app, O1, O2.
Qed.

End Layout.

(** X14: the document of the first instance of a run that completes. Its
    pages are, in this order: the title page (the folder name, centred at
    (0.5, 0.5), size 24), one page per round of the identifier loop, titled
    ["(<id>) <name>"], and the four category pages, titled Sötma, Syrlighet,
    Fyllighet and Helhetsbetyg; every page is sized 1920 by 1080 pixels at
    the resolution in force. *)
Theorem first_document_layout dpi set_iter inst st st' :
  figs st = [] ->
  process_instance dpi set_iter inst st = (Ok (), st') ->
  exists pages,
    files st' = files st ++ [(instance_folder inst ++ str ".pdf", pages)]
    /\ head pages = Some (page (title_figure dpi 1 (instance_folder inst)))
    /\ map (fun p => (sup_s <$> fig_suptitle p, fig_axes p ≫= ax_title)) pages
       = (None, None)
         :: map (fun id =>
                   (Some (str "(" ++ str_of_int id ++ str ") "
                          ++ default [] (to_dict (id_name_map_csv inst) !! id)),
                    None))
                (set_iter (merge_sort Z.le (map Id (mead_data_csv inst))))
         ++ map (fun category => (None, Some (column_name category)))
                [CSotma; CSyrlighet; CFyllighet; CHelhetsbetyg]
    /\ Forall (fun p => fig_size_inches p = Some (1920 / dpi, 1080 / dpi)%float) pages.
Proof.
  intros Hempty Hrun.
  destruct (process_instance_document dpi set_iter inst st st') as (created & Hp & _ & ->);
    [rewrite Hempty; constructor | done |].
  destruct (plot_instance_layout dpi set_iter inst st _ Hp) as (rest & Hst & Hobs).
  rewrite Hempty in *. cbn [app] in *. injection Hst as ->.
  eexists. split; [reflexivity|].
  change (next_num []) with 1 in *. split; [done|]. split.
  - cbn [map]. f_equal.
    assert (map (fun p => (sup_s <$> fig_suptitle p, fig_axes p ≫= ax_title))
                (map page rest)
            = map fst (map (fun fig => (sup_s <$> fig_suptitle fig,
                                        fig_axes fig ≫= ax_title, fig_dpi fig)) rest)) as ->
      by by rewrite !map_map.
    rewrite Hobs, map_app, !map_map. cbn [fst].
    f_equal. apply map_ext. intros id. by rewrite <- !app_assoc.
  - constructor; [done|].
    assert (Forall (fun fig => fig_dpi fig = dpi) rest) as Hdpi.
    { apply Forall_forall. intros fig Hfig.
      set (look := fun fig : Figure =>
             (sup_s <$> fig_suptitle fig, fig_axes fig ≫= ax_title, fig_dpi fig)) in *.
      assert (look fig ∈ map look rest) as Hin
        by exact (list_elem_of_fmap_2 look rest fig Hfig).
      rewrite Hobs in Hin.
      apply elem_of_app in Hin as [Hin|Hin];
        apply list_elem_of_fmap in Hin as (? & Heq & _); by injection Heq. }
    apply Forall_map. eapply Forall_impl; [exact Hdpi|].
    intros fig Hfig. cbn [page set_size_inches fig_size_inches]. by rewrite Hfig.
Qed.

Lemma first_document_layout_witness :
  let st' := snd (process_instance Sample.dpi CPythonSet.set_iter Sample.mead2025
                    initial_state) in
  figs initial_state = []
  /\ process_instance Sample.dpi CPythonSet.set_iter Sample.mead2025 initial_state
     = (Ok (), st')
  /\ exists pages,
       files st'
       = files initial_state ++ [(instance_folder Sample.mead2025 ++ str ".pdf", pages)]
       /\ head pages
          = Some (page (title_figure Sample.dpi 1 (instance_folder Sample.mead2025)))
       /\ map (fun p => (sup_s <$> fig_suptitle p, fig_axes p ≫= ax_title)) pages
          = (None, None)
            :: map (fun id =>
                      (Some (str "(" ++ str_of_int id ++ str ") "
                             ++ default []
                                  (to_dict (id_name_map_csv Sample.mead2025) !! id)),
                       None))
                   (CPythonSet.set_iter
                      (merge_sort Z.le (map Id (mead_data_csv Sample.mead2025))))
            ++ map (fun category => (None, Some (column_name category)))
                   [CSotma; CSyrlighet; CFyllighet; CHelhetsbetyg]
       /\ Forall (fun p => fig_size_inches p
                           = Some (1920 / Sample.dpi, 1080 / Sample.dpi)%float) pages.
Proof.
  cbv zeta.
  assert (process_instance Sample.dpi CPythonSet.set_iter Sample.mead2025 initial_state
          = (Ok (), snd (process_instance Sample.dpi CPythonSet.set_iter Sample.mead2025
                           initial_state))) as H
    by (vm_compute; reflexivity).
  exact (conj eq_refl (conj H
    (first_document_layout Sample.dpi CPythonSet.set_iter Sample.mead2025
       initial_state _ eq_refl H))).
Defined.

(** ** Totals of the aggregates *)

Section Totals.

Lemma counter_incr_total elem (c : Counter) :
  counter_total (counter_incr elem c) = counter_total c + 1.
Proof.
  unfold counter_total. induction c as [|[k n] c IH]; simpl; [done|].
  destruct (decide (k = elem)); simpl; lia.
Qed.

Lemma counter_incr_positive elem (c : Counter) :
  Forall (fun kv => 1 <= snd kv) c ->
  Forall (fun kv => 1 <= snd kv) (counter_incr elem c).
Proof.
  induction 1 as [|[k n] c Hk Hc IH]; simpl.
  - by repeat constructor.
  - destruct (decide (k = elem)); constructor; simpl in *; try done. lia.
Qed.

Lemma counter_update_total (l : list (list N)) (c : Counter) :
  counter_total (counter_update c l) = counter_total c + Z.of_nat (length l).
Proof.
  unfold counter_update. revert c. induction l as [|x l IH]; intros c; simpl; [lia|].
  rewrite IH, counter_incr_total. lia.
Qed.

Lemma counter_update_positive (l : list (list N)) (c : Counter) :
  Forall (fun kv => 1 <= snd kv) c ->
  Forall (fun kv => 1 <= snd kv) (counter_update c l).
Proof.
  unfold counter_update. revert c. induction l as [|x l IH]; intros c Hc; simpl; [done|].
  by apply IH, counter_incr_positive.
Qed.

Lemma concat_tokens_length col (rows : DataFrame) :
  length (concat (map (fun r => clean_split (cell col r)) rows)) = token_count col rows.
Proof.
  unfold token_count. induction rows as [|r rows IH]; simpl; [done|].
  by rewrite length_app, IH.
Qed.

Lemma aggregate_Ok_rows (df : DataFrame) id agg :
  aggregate df id = Ok agg -> query_Id df id <> [].
Proof. intros H Hq. by rewrite (aggregate_no_rows df id Hq) in H. Qed.

End Totals.

(** X15: when the aggregation of an identifier succeeds, every count of
    the notes table and of the off-flavors table is at least 1, the counts
    of each table add up to the number of tokens that the matching rows give
    in its column, and the other list has as many entries as the matching
    rows give tokens in the column Övrigt. *)
Theorem aggregate_totals (df : DataFrame) (id : Z) (agg : Aggregates) :
  aggregate df id = Ok agg ->
  Forall (fun kv => 1 <= snd kv) (notes agg)
  /\ Forall (fun kv => 1 <= snd kv) (off_flavors agg)
  /\ counter_total (notes agg) = Z.of_nat (token_count CSmaknoter (query_Id df id))
  /\ counter_total (off_flavors agg) = Z.of_nat (token_count CBismaker (query_Id df id))
  /\ py_len (other agg) = Ok (Z.of_nat (token_count COvrigt (query_Id df id))).
Proof.
  intros H. pose proof (aggregate_Ok_rows df id agg H) as Hrows.
  unfold aggregate in H. rewrite !text_sum_rows in H by done.
  injection H as <-. cbn [notes off_flavors other py_len].
  rewrite !counter_update_total.
  rewrite (concat_tokens_length CSmaknoter), (concat_tokens_length CBismaker),
    (concat_tokens_length COvrigt).
  split; [by apply counter_update_positive|].
  split; [by apply counter_update_positive|].
  split; [unfold counter_total; simpl; lia|].
  split; [unfold counter_total; simpl; lia|done].
Qed.

Lemma aggregate_totals_witness :
  aggregate Sample.mead2024_csv 1 = Ok Sample.aggregates_1
  /\ Forall (fun kv => 1 <= snd kv) (notes Sample.aggregates_1)
  /\ Forall (fun kv => 1 <= snd kv) (off_flavors Sample.aggregates_1)
  /\ counter_total (notes Sample.aggregates_1)
     = Z.of_nat (token_count CSmaknoter (query_Id Sample.mead2024_csv 1))
  /\ counter_total (off_flavors Sample.aggregates_1)
     = Z.of_nat (token_count CBismaker (query_Id Sample.mead2024_csv 1))
  /\ py_len (other Sample.aggregates_1)
     = Ok (Z.of_nat (token_count COvrigt (query_Id Sample.mead2024_csv 1))).
Proof.
  assert (aggregate Sample.mead2024_csv 1 = Ok Sample.aggregates_1) as H
    by (vm_compute; reflexivity).
  exact (conj H (aggregate_totals Sample.mead2024_csv 1 Sample.aggregates_1 H)).
Defined.

(** ** The name table *)

Section NameTable.

Lemma to_dict_snoc rows k n :
  to_dict (rows ++ [(k, n)]) = <[k := n]> (to_dict rows).
Proof. unfold to_dict. by rewrite fold_left_app. Qed.

Lemma to_dict_absent rows k :
  k ∉ map fst rows -> to_dict rows !! k = None.
Proof.
  induction rows as [|[k' n'] rows IH] using rev_ind; intros Hk; [done|].
  rewrite to_dict_snoc. rewrite map_app in Hk. cbn [map fst] in Hk.
  apply not_elem_of_app in Hk as [Hk Hk']. apply not_elem_of_cons in Hk' as [Hk' _].
  rewrite lookup_insert_ne by done. by apply IH.
Qed.

Lemma to_dict_last rows1 k n rows2 :
  k ∉ map fst rows2 -> to_dict (rows1 ++ (k, n) :: rows2) !! k = Some n.
Proof.
  induction rows2 as [|[k' n'] rows2 IH] using rev_ind; intros Hk.
  - by rewrite to_dict_snoc, lookup_insert_eq.
  - rewrite map_app in Hk. cbn [map fst] in Hk.
    apply not_elem_of_app in Hk as [Hk Hk']. apply not_elem_of_cons in Hk' as [Hk' _].
    rewrite app_comm_cons, app_assoc, to_dict_snoc, lookup_insert_ne by done.
    by apply IH.
Qed.

Lemma to_dict_dom rows :
  dom (to_dict rows) = list_to_set (map fst rows).
Proof.
  induction rows as [|[k n] rows IH] using rev_ind; [apply dom_empty_L|].
  rewrite to_dict_snoc, dom_insert_L, IH, map_app, list_to_set_app_L.
  cbn [map fst list_to_set].
  by rewrite (right_id_L ∅ (∪)), (comm_L (∪)).
Qed.

Lemma to_dict_size rows :
  size (to_dict rows) = length (remove_dups (map fst rows)).
Proof.
  rewrite <- size_dom, to_dict_dom.
  rewrite <- (size_list_to_set (C := gset Z) (remove_dups (map fst rows)))
    by apply NoDup_remove_dups.
  f_equal. apply set_eq. intros k.
  by rewrite !elem_of_list_to_set, elem_of_remove_dups.
Qed.

End NameTable.

(** X16: the resolver built from the rows of the name table. For an
    identifier of several rows the name of the last of them is the one
    resolved, an identifier of no row raises [KeyError], the identifiers
    the resolver answers for are those of the rows, and its length is the
    number of distinct identifiers of the rows. *)
Theorem name_table_last_row_wins (rows1 rows2 : list (Z * list N)) (k : Z) (n : list N) :
  k ∉ map fst rows2 ->
  fst (IdNameMapper_getitem (read_id_name_map (rows1 ++ (k, n) :: rows2)) k)
  = Ok (str "(" ++ str_of_int k ++ str ") " ++ n)
  /\ (forall k',
        IdNameMapper_contains (read_id_name_map (rows1 ++ (k, n) :: rows2)) k' = true
        <-> k' ∈ map fst (rows1 ++ (k, n) :: rows2))
  /\ (forall k',
        k' ∉ map fst (rows1 ++ (k, n) :: rows2) ->
        fst (IdNameMapper_getitem (read_id_name_map (rows1 ++ (k, n) :: rows2)) k')
        = Raise (KeyError k'))
  /\ IdNameMapper_len (read_id_name_map (rows1 ++ (k, n) :: rows2))
     = length (remove_dups (map fst (rows1 ++ (k, n) :: rows2))).
Proof.
  intros Hk.
  unfold IdNameMapper_contains, IdNameMapper_len, IdNameMapper_getitem, read_id_name_map.
  cbn [fst _id_name_map].
  split; [by rewrite (to_dict_last rows1 k n rows2 Hk), <- !app_assoc|].
  split; [|split].
  - intros k'. destruct (to_dict (rows1 ++ (k, n) :: rows2) !! k') as [n'|] eqn:E.
    + split; [intros _|done].
      apply (elem_of_list_to_set (C := gset Z)). rewrite <- to_dict_dom.
      by apply elem_of_dom.
    + split; [done|]. intros Hin.
      apply (elem_of_list_to_set (C := gset Z)) in Hin. rewrite <- to_dict_dom in Hin.
      apply elem_of_dom in Hin as [? Hin]. by rewrite E in Hin.
  - intros k' Hk'. by rewrite (to_dict_absent _ k' Hk').
  - apply to_dict_size.
Qed.

Lemma name_table_last_row_wins_witness :
  (2 ∉ map fst [(3, str "Gamma")])
  /\ fst (IdNameMapper_getitem
            (read_id_name_map ([(1, str "Alfa"); (2, str "Beta")]
                               ++ (2, str "Delta") :: [(3, str "Gamma")])) 2)
     = Ok (str "(" ++ str_of_int 2 ++ str ") " ++ str "Delta").
Proof.
  assert (2 ∉ map fst [(3, str "Gamma")]) as H
    by (apply (bool_decide_unpack _); vm_compute; exact I).
  exact (conj H
    (proj1 (name_table_last_row_wins [(1, str "Alfa"); (2, str "Beta")]
              [(3, str "Gamma")] 2 (str "Delta") H))).
Defined.

(** ** Runs of a single instance *)

Section SingleInstance.

Variable dpi : float.
Variable set_iter : list Z -> list Z.

(** A loop that completes has completed every one of its rounds. *)
Lemma for_each_Ok_Forall {A} (P : A -> Prop) (body : A -> M unit) (l : list A) st st' :
  (forall a st, P a \/ exists e st1, body a st = (Raise e, st1)) ->
  for_each l body st = (Ok (), st') ->
  Forall P l.
Proof.
  intros Hbody. revert st. induction l as [|a l IH]; intros st Hrun; [constructor|].
  rewrite for_each_cons in Hrun.
  destruct (Hbody a st) as [Ha|(e & st1 & E)].
  - destruct (body a st) as [[[]|e] st1]; [|done].
    constructor; [done|]. by eapply IH.
  - by rewrite E in Hrun.
Qed.

Lemma plot_mead_info_Ok_resolved (df : DataFrame) id (m : IdNameMapper) st :
  is_Some (_id_name_map m !! id)
  \/ exists e st1, plot_mead_info dpi df id m st = (Raise e, st1).
Proof.
  destruct (_id_name_map m !! id) as [name|] eqn:Hm; [by left|]. right.
  destruct (query_Id df id) as [|r rows] eqn:Hq.
  - exists TypeError, st. by apply plot_mead_info_no_rows.
  - destruct (plot_mead_info_unresolved dpi df id m st) as [st1 ->];
      [by rewrite Hq | done | by eexists _, _].
Qed.

Lemma plot_category_Ok_balanced (df : DataFrame) category (m : IdNameMapper) st :
  balanced df \/ exists e st1, plot_category dpi df category m st = (Raise e, st1).
Proof.
  destruct (decide (balanced df)) as [Hb|Hb]; [by left|]. right.
  exists ValueError, st. by apply plot_category_raises, frame_unbalanced.
Qed.

(** The plotting of an instance completes only on a table whose
    identifiers are all named and have equally many rows. *)
Lemma plot_instance_completed inst st st1 :
  set_contract set_iter (merge_sort Z.le (map Id (mead_data_csv inst))) ->
  plot_instance dpi set_iter inst st = (Ok (), st1) ->
  resolves (to_dict (id_name_map_csv inst)) (mead_data_csv inst)
  /\ balanced (mead_data_csv inst).
Proof.
  intros (Hnd & Hsub & Hsup). rewrite plot_instance_title. intros H.
  apply bind_Ok in H as ([] & st2 & H1 & H2).
  apply (for_each_Ok_Forall
           (fun id => is_Some (to_dict (id_name_map_csv inst) !! id))) in H1;
    [|intros id st0;
      exact (plot_mead_info_Ok_resolved (mead_data_csv inst) id
               {| _id_name_map := to_dict (id_name_map_csv inst) |} st0)].
  apply (for_each_Ok_Forall (fun _ => balanced (mead_data_csv inst))) in H2;
    [|intros category st0; apply plot_category_Ok_balanced].
  split; [|by apply Forall_inv in H2].
  unfold resolves. apply Forall_forall. intros r Hr.
  rewrite Forall_forall in H1, Hsup. apply H1, Hsup.
  rewrite merge_sort_Permutation.
  exact (list_elem_of_fmap_2 Id (mead_data_csv inst) r Hr).
Qed.

End SingleInstance.

(** C6, for a run that completes: a single-instance run (the registry is
    empty when it starts) over a ratings table with k distinct identifiers
    creates one figure for the title, one for each identifier and four for
    the categories, and its document has these 1 + k + 4 pages. The run
    completes exactly when every identifier of the table is named and all
    identifiers have equally many rows. *)
Theorem single_instance_page_count dpi set_iter inst st :
  figs st = [] ->
  set_contract set_iter (merge_sort Z.le (map Id (mead_data_csv inst))) ->
  ((exists st', process_instance dpi set_iter inst st = (Ok (), st'))
   <-> resolves (to_dict (id_name_map_csv inst)) (mead_data_csv inst)
       /\ balanced (mead_data_csv inst))
  /\ (forall st',
        process_instance dpi set_iter inst st = (Ok (), st') ->
        exists pages,
          files st' = files st ++ [(instance_folder inst ++ str ".pdf", pages)]
          /\ length (figs st') = length pages
          /\ length pages
             = (1 + size (list_to_set (map Id (mead_data_csv inst)) : gset Z) + 4)%nat).
Proof.
  intros Hempty Hset.
  assert (forall st',
            process_instance dpi set_iter inst st = (Ok (), st') ->
            exists created,
              plot_instance dpi set_iter inst st
              = (Ok (), {| figs := created; style := Some (str "Solarize_Light2");
                           files := files st |})
              /\ length created
                 = (1 + size (list_to_set (map Id (mead_data_csv inst)) : gset Z) + 4)%nat
              /\ st' = {| figs := map page created;
                          style := Some (str "Solarize_Light2");
                          files := files st ++
                            [(instance_folder inst ++ str ".pdf", map page created)] |})
    as Hdoc.
  { intros st' Hrun.
    destruct (process_instance_document dpi set_iter inst st st')
      as (created & Hp & Hn & ->); [rewrite Hempty; constructor | done |].
    rewrite Hempty in *. cbn [app] in *. exists created.
    split; [done|]. split; [|done].
    by rewrite (numbered_length _ _ _ Hn), (set_iter_rounds set_iter _ Hset). }
  split; [split|].
  - intros [st' Hrun]. destruct (Hdoc st' Hrun) as (created & Hp & _).
    by eapply plot_instance_completed.
  - intros [Hres Hbal].
    destruct (plot_instance_completes dpi set_iter inst st Hset Hres Hbal) as [st1 Hplot].
    destruct (plot_instance_created dpi set_iter inst st st1 Hplot) as (created & -> & Hn).
    eexists. unfold process_instance. unfold mbind, M_bind. rewrite Hplot.
    apply save_pdf_pages. cbn [figs].
    eapply sorted_extend; [rewrite Hempty; constructor | exact Hn].
  - intros st' Hrun. destruct (Hdoc st' Hrun) as (created & _ & Hlen & ->).
    exists (map page created). cbn [files figs]. by rewrite length_map.
Qed.

Lemma single_instance_page_count_witness :
  figs initial_state = []
  /\ set_contract CPythonSet.set_iter
       (merge_sort Z.le (map Id (mead_data_csv Sample.mead2024)))
  /\ ((exists st', process_instance Sample.dpi CPythonSet.set_iter Sample.mead2024
                     initial_state = (Ok (), st'))
      <-> resolves (to_dict (id_name_map_csv Sample.mead2024))
            (mead_data_csv Sample.mead2024)
          /\ balanced (mead_data_csv Sample.mead2024))
  /\ (forall st',
        process_instance Sample.dpi CPythonSet.set_iter Sample.mead2024 initial_state
        = (Ok (), st') ->
        exists pages,
          files st'
          = files initial_state ++ [(instance_folder Sample.mead2024 ++ str ".pdf", pages)]
          /\ length (figs st') = length pages
          /\ length pages
             = (1 + size (list_to_set (map Id (mead_data_csv Sample.mead2024)) : gset Z)
                + 4)%nat).
Proof.
  assert (set_contract CPythonSet.set_iter
            (merge_sort Z.le (map Id (mead_data_csv Sample.mead2024)))) as H1
    by (unfold set_contract; apply (bool_decide_unpack _); vm_compute; exact I).
  exact (conj eq_refl (conj H1
    (single_instance_page_count Sample.dpi CPythonSet.set_iter Sample.mead2024
       initial_state eq_refl H1))).
Defined.

(** C6, counterexample: a single-instance run over a ratings table with two
    distinct identifiers, both named, of which one has two rows and the other
    one. The run makes the title page and the two identifier pages, raises
    [ValueError] in the first category plot and writes no document: three
    figures, not seven, and no page. *)
Lemma unbalanced_instance_three_figures :
  let run := process_instance Sample.dpi CPythonSet.set_iter Sample.mead2026
               initial_state in
  size (list_to_set (map Id (mead_data_csv Sample.mead2026)) : gset Z) = 2%nat
  /\ resolves (to_dict (id_name_map_csv Sample.mead2026)) (mead_data_csv Sample.mead2026)
  /\ fst run = Raise ValueError
  /\ length (figs (snd run)) = 3%nat
  /\ files (snd run) = [].
Proof.
  cbv zeta. split; [by vm_compute|].
  split; [unfold resolves; apply (bool_decide_unpack _); vm_compute; exact I|].
  vm_compute. by repeat split.
Qed.
